(** * covviz: a shallow embedding of [covviz/covviz.py]

    The report generator reads an indexcov coverage table and its [.roc]
    companion, builds a dictionary of plot traces, serialises it to JSON,
    compresses it and writes a single HTML document.  This file embeds
    [parse_args], [parse_roc], [compress_data] and [cli] and proves what
    they do.

    Conventions of the embedding:
    - a Python [str] is a [string]; every [ascii] stands for one code
      point below 256;
    - a Python [dict] keeps insertion order, so it is an association list
      with the update-in-place-or-append discipline of [dict_set];
    - an exception is a value of [exn]; a computation that may raise
      returns [result A = exn + A];
    - the sibling parsers ([parse_bed], [parse_gff], [parse_ped]), the
      file opener [gzopen], the template engine and the [lzstring] codec
      live outside [covviz.py]: [cli] takes them as an [Env]. *)

From Stdlib Require Import List String Ascii ZArith Bool Lia Arith.
From Stdlib Require Import DecimalString DecimalPos DecimalZ.
Import ListNotations.

Local Open Scope string_scope.
Local Open Scope list_scope.

(** ** Exceptions and the error monad *)

Inductive exn : Type :=
| KeyError (key : string)
| ValueError (msg : string)
| AttributeError (msg : string)
| OSError (path : string)
| SystemExit (code : Z)
| OtherError (name msg : string).

Definition result (A : Type) : Type := (exn + A)%type.

Definition ret {A} (a : A) : result A := inr a.
Definition raise {A} (e : exn) : result A := inl e.
Definition bind {A B} (c : result A) (k : A -> result B) : result B :=
  match c with
  | inl e => inl e
  | inr a => k a
  end.

Declare Scope result_scope.
Delimit Scope result_scope with result.
Notation "x <- c ;; k" := (bind c (fun x => k))
  (at level 61, c at next level, right associativity) : result_scope.
Local Open Scope result_scope.

(** A [for] loop whose body may raise. *)
Fixpoint for_each {A S} (body : A -> S -> result S) (l : list A) (s : S)
  : result S :=
  match l with
  | [] => ret s
  | a :: l' => s' <- body a s ;; for_each body l' s'
  end.

(** ** Strings *)

Definition str_in (x : string) (l : list string) : bool :=
  existsb (String.eqb x) l.

Definition chr_in (c : ascii) (cs : string) : bool :=
  existsb (Ascii.eqb c) (list_ascii_of_string cs).

(** [s.lstrip(chars)], [s.rstrip(chars)] and [s.strip(chars)]: every
    leading (trailing) character that belongs to [chars] is dropped. *)
Fixpoint lstrip (chars s : string) : string :=
  match s with
  | EmptyString => EmptyString
  | String c s' => if chr_in c chars then lstrip chars s' else s
  end.

Fixpoint rstrip (chars s : string) : string :=
  match s with
  | EmptyString => EmptyString
  | String c s' =>
      match rstrip chars s' with
      | EmptyString => if chr_in c chars then EmptyString
                       else String c EmptyString
      | r => String c r
      end
  end.

Definition strip (chars s : string) : string := rstrip chars (lstrip chars s).

(** ** Insertion-ordered dictionaries *)

Section Dict.
Context {V : Type}.

Definition dict : Type := list (string * V).

Fixpoint dict_get (k : string) (d : dict) : option V :=
  match d with
  | [] => None
  | (k', v) :: d' => if String.eqb k k' then Some v else dict_get k d'
  end.

(** [d[k] = v]: an existing key keeps its position. *)
Fixpoint dict_set (k : string) (v : V) (d : dict) : dict :=
  match d with
  | [] => [(k, v)]
  | (k', v') :: d' =>
      if String.eqb k k' then (k, v) :: d' else (k', v') :: dict_set k v d'
  end.

Definition dict_keys (d : dict) : list string := map fst d.

(** [d[k]], raising [KeyError] on a missing key. *)
Definition dict_item (k : string) (d : dict) : result V :=
  match dict_get k d with
  | Some v => ret v
  | None => raise (KeyError k)
  end.
End Dict.
Arguments dict V : clear implicits.

(** ** Python values that reach the trace dictionary *)

(** The characters of the [repr] of a finite float. *)
Inductive fchar : Type :=
| F0 | F1 | F2 | F3 | F4 | F5 | F6 | F7 | F8 | F9
| Fdot | Fminus | Fplus | Fexp.

(** A float is not-a-number, an infinity, or a finite value, which the
    embedding identifies with the text [float.__repr__] prints for it. *)
Inductive pyfloat : Type :=
| FNaN
| FInf
| FNegInf
| FFinite (repr : list fchar).

#[local] Set Warnings "-register-all".
Inductive pyval : Type :=
| PNone
| PBool (b : bool)
| PInt (z : Z)
| PFloat (f : pyfloat)
| PStr (s : string)
| PList (l : list pyval)
| PDict (d : list (string * pyval)).

(** Induction on values, through lists and dictionaries. *)

Section PyvalInduction.
Variable P : pyval -> Prop.
Hypothesis HNone : P PNone.
Hypothesis HBool : forall b, P (PBool b).
Hypothesis HInt : forall z, P (PInt z).
Hypothesis HFloat : forall f, P (PFloat f).
Hypothesis HStr : forall s, P (PStr s).
Hypothesis HList : forall l, Forall P l -> P (PList l).
Hypothesis HDict : forall d, Forall (fun kv => P (snd kv)) d -> P (PDict d).

Fixpoint pyval_induction (v : pyval) : P v :=
  match v with
  | PNone => HNone
  | PBool b => HBool b
  | PInt z => HInt z
  | PFloat f => HFloat f
  | PStr s => HStr s
  | PList l =>
      HList l
        ((fix items (l : list pyval) : Forall P l :=
            match l with
            | [] => Forall_nil P
            | x :: l' => Forall_cons x (pyval_induction x) (items l')
            end) l)
  | PDict d =>
      HDict d
        ((fix items (d : list (string * pyval))
            : Forall (fun kv => P (snd kv)) d :=
            match d with
            | [] => Forall_nil _
            | kv :: d' =>
                Forall_cons kv
                  (match kv as kv0 return P (snd kv0) with
                   | (_, x) => pyval_induction x
                   end)
                  (items d')
            end) d)
  end.
End PyvalInduction.

(** ** [list.index], [list.pop] *)

Fixpoint list_index (x : string) (l : list string) : option nat :=
  match l with
  | [] => None
  | y :: l' => if String.eqb x y then Some 0
               else option_map S (list_index x l')
  end.

Fixpoint list_pop (i : nat) (l : list string) : list string :=
  match i, l with
  | _, [] => []
  | 0, _ :: l' => l'
  | S i', y :: l' => y :: list_pop i' l'
  end.

(** ** [csv.DictReader] *)

(** What [csv.reader] yields for a file: one list of fields per line, the
    empty list for a blank line. *)
Definition table : Type := list (list string).

(** A cell of a row dictionary: a field of the line, or [None] (the
    reader's [restval]) where the line is shorter than the header. *)
Definition cell : Type := option string.
Definition row : Type := dict cell.

(** [dict(zip(fieldnames, line))] *)
Fixpoint dict_zip (fieldnames line : list string) (d : row) : row :=
  match fieldnames, line with
  | f :: fs, v :: vs => dict_zip fs vs (dict_set f (Some v) d)
  | _, _ => d
  end.

(** One row of the reader.  Fields beyond the header go under the key
    [None], which no string subscript can reach; it is left out. *)
Definition DictReader_row (fieldnames line : list string) : row :=
  fold_left (fun d k => dict_set k None d)
            (skipn (List.length line) fieldnames)
            (dict_zip fieldnames line []).

Definition is_blank (line : list string) : bool :=
  match line with [] => true | _ => false end.

(** The first line gives the field names; blank lines are not returned. *)
Definition DictReader (fh : table) : list row :=
  match fh with
  | [] => []
  | fieldnames :: lines =>
      map (DictReader_row fieldnames)
          (filter (fun l => negb (is_blank l)) lines)
  end.

(** ** [parse_roc] *)

(** [data = defaultdict(lambda: defaultdict(list))] *)
Definition rocdata : Type := dict (dict (list pyval)).

Definition data_get (chr key : string) (data : rocdata) : list pyval :=
  match dict_get chr data with
  | None => []
  | Some inner =>
      match dict_get key inner with
      | None => []
      | Some l => l
      end
  end.

(** [data[chr][key].append(v)] *)
Definition data_append (chr key : string) (v : pyval) (data : rocdata)
  : rocdata :=
  let inner := match dict_get chr data with
               | None => []
               | Some inner => inner
               end in
  let column := match dict_get key inner with
                | None => []
                | Some l => l
                end in
  dict_set chr (dict_set key (column ++ [v]) inner) data.

Definition cell_val (c : cell) : pyval :=
  match c with
  | None => PNone
  | Some s => PStr s
  end.

(** The body of [for row in reader].  [keys] is [traces.keys()], read
    after ["roc"] has been set. *)
Definition roc_row (keys samples : list string) (r : row) (data : rocdata)
  : result rocdata :=
  c <- dict_item "#chrom" r ;;
  match c with
  | None => raise (AttributeError "'NoneType' object has no attribute 'strip'")
  | Some c =>
      if String.eqb c "#chrom" then ret data
      else
        let chr := strip "chr" c in
        if negb (str_in chr keys) then ret data
        else
          cov <- dict_item "cov" r ;;
          let data := data_append chr "x" (cell_val cov) data in
          for_each (fun sample data =>
                      v <- dict_item sample r ;;
                      ret (data_append chr sample (cell_val v) data))
                   samples data
  end.

Definition roc_trace (data : rocdata) (chr sample : string) : pyval :=
  PDict [ ("x", PList (data_get chr "x" data));
          ("y", PList (tl (data_get chr sample data)));
          ("hoverinfo", PStr "text");
          ("mode", PStr "lines");
          ("text", PStr sample);
          ("marker", PDict [("color", PStr "rgba(108,117,125,0.2)")]) ].

(** The second loop.  [roc] is the dictionary object created by
    [traces["roc"] = dict()] and the inner accumulator is the list object
    created by [traces["roc"][chr] = list()]: the loops fill these two
    objects, to which the trace dictionary holds references. *)
Definition roc_emit (data : rocdata) (samples chroms : list string)
  : dict pyval :=
  fold_left
    (fun roc chr =>
       dict_set chr
         (PList (fold_left (fun l sample => l ++ [roc_trace data chr sample])
                           samples []))
         roc)
    chroms [].

Definition roc_chroms (traces : dict pyval) : result (list string) :=
  let chroms := dict_keys traces in
  match list_index "chromosomes" chroms with
  | None => raise (ValueError "'chromosomes' is not in list")
  | Some i => ret (list_pop i chroms)
  end.

(** [parse_roc(path, traces, samples)].  [fh] is what opening [path] and
    tokenising it gives; it is consulted only after [chroms] is known. *)
Definition parse_roc (fh : result table) (traces : dict pyval)
  (samples : list string) : result (dict pyval) :=
  chroms <- roc_chroms traces ;;
  let traces := dict_set "roc" (PDict []) traces in
  lines <- fh ;;
  data <- for_each (roc_row (dict_keys traces) samples) (DictReader lines) [] ;;
  ret (dict_set "roc" (PDict (roc_emit data samples chroms)) traces).

(** ** [str.replace] *)

(** [s.startswith(p)] *)
Fixpoint startswith (p s : string) : bool :=
  match p, s with
  | EmptyString, _ => true
  | String a p', String b s' => Ascii.eqb a b && startswith p' s'
  | String _ _, EmptyString => false
  end.

(** The scan of [s.replace(old, new)] for a non-empty [old]: from left to
    right, an occurrence of [old] is replaced and the scan resumes after
    it.  [skip] counts the characters of a replaced occurrence that are
    still to be passed over. *)
Fixpoint replace_scan (old new : string) (skip : nat) (s : string) : string :=
  match s with
  | EmptyString => EmptyString
  | String c s' =>
      match skip with
      | S k => replace_scan old new k s'
      | O =>
          if startswith old s
          then (new ++ replace_scan old new (String.length old - 1) s')%string
          else String c (replace_scan old new 0 s')
      end
  end.

(** With an empty [old], [new] is put before every character and at the
    end. *)
Fixpoint intersperse (new s : string) : string :=
  match s with
  | EmptyString => new
  | String c s' => (new ++ String c (intersperse new s'))%string
  end.

Definition replace (old new s : string) : string :=
  match old with
  | EmptyString => intersperse new s
  | _ => replace_scan old new 0 s
  end.

(** ** [int] and decimal texts *)

Definition string_of_Z (z : Z) : string := NilZero.string_of_int (Z.to_int z).

(** [int(s)] for a sign and decimal digits.  Surrounding white space and
    digit grouping are not covered: such texts are rejected here. *)
Definition py_int (s : string) : option Z :=
  match s with
  | EmptyString => None
  | String c s' =>
      if Ascii.eqb c "+"
      then option_map (fun u => Z.of_int (Decimal.Pos u))
                      (NilZero.uint_of_string s')
      else option_map Z.of_int (NilZero.int_of_string s)
  end.

Definition is_digit (c : ascii) : bool :=
  (48 <=? nat_of_ascii c)%nat && (nat_of_ascii c <=? 57)%nat.

Fixpoint all_digits (s : string) : bool :=
  match s with
  | EmptyString => true
  | String c s' => is_digit c && all_digits s'
  end.

(** ** [json.dumps] *)

Definition dquote : ascii := "034"%char.
Definition backslash : ascii := "092"%char.

Definition hex_digit (n : nat) : ascii :=
  if (n <? 10)%nat then ascii_of_nat (48 + n) else ascii_of_nat (87 + n).

(** The replacement of one character by [encode_basestring_ascii]: the
    short escapes of [ESCAPE_DCT], [\u00XX] for the other characters
    outside the range from space to tilde, the character itself inside
    it. *)
Definition escape_char (c : ascii) : string :=
  let n := nat_of_ascii c in
  if Ascii.eqb c dquote then String backslash (String dquote EmptyString)
  else if Ascii.eqb c backslash then String backslash (String backslash EmptyString)
  else if (n =? 8)%nat then String backslash "b"
  else if (n =? 12)%nat then String backslash "f"
  else if (n =? 10)%nat then String backslash "n"
  else if (n =? 13)%nat then String backslash "r"
  else if (n =? 9)%nat then String backslash "t"
  else if (n <? 32)%nat || (126 <? n)%nat
       then String backslash
              (String "u" (String "0" (String "0"
                 (String (hex_digit (n / 16))
                    (String (hex_digit (n mod 16)) EmptyString)))))
  else String c EmptyString.

Fixpoint escape (s : string) : string :=
  match s with
  | EmptyString => EmptyString
  | String c s' => (escape_char c ++ escape s')%string
  end.

Definition encode_basestring_ascii (s : string) : string :=
  String dquote (escape s ++ String dquote EmptyString).

Definition fchar_ascii (c : fchar) : ascii :=
  match c with
  | F0 => "0" | F1 => "1" | F2 => "2" | F3 => "3" | F4 => "4"
  | F5 => "5" | F6 => "6" | F7 => "7" | F8 => "8" | F9 => "9"
  | Fdot => "." | Fminus => "-" | Fplus => "+" | Fexp => "e"
  end%char.

(** [floatstr]: the [repr] of a finite float, and the three names the
    encoder uses otherwise. *)
Definition floatstr (f : pyfloat) : string :=
  match f with
  | FNaN => "NaN"
  | FInf => "Infinity"
  | FNegInf => "-Infinity"
  | FFinite repr => string_of_list_ascii (map fchar_ascii repr)
  end.

(** [json.dumps(v)] with its defaults: [ensure_ascii], separators [", "]
    and [": "], keys in insertion order. *)
Fixpoint dumps (v : pyval) : string :=
  match v with
  | PNone => "null"
  | PBool true => "true"
  | PBool false => "false"
  | PInt z => string_of_Z z
  | PFloat f => floatstr f
  | PStr s => encode_basestring_ascii s
  | PList l => ("[" ++ String.concat ", " (map dumps l) ++ "]")%string
  | PDict d =>
      ("{" ++ String.concat ", "
                (map (fun kv => encode_basestring_ascii (fst kv) ++ ": "
                                ++ dumps (snd kv)) d)
           ++ "}")%string
  end.

(** ** [compress_data] *)

(** [s.encode("utf-8", "ignore").decode("utf-8")]: every code point of the
    embedding's strings has a UTF-8 encoding, so nothing is dropped. *)
Definition utf8_ignore_roundtrip (s : string) : string := s.

(** The text handed to the compressor. *)
Definition json_payload (data : pyval) : string :=
  let json_str := utf8_ignore_roundtrip (dumps data) in
  replace "NaN" "null" json_str.

Definition compress_data (compressToBase64 : string -> string) (data : pyval)
  : string :=
  compressToBase64 (json_payload data).

(** What the specification asks of the normalisation: every float that is
    not-a-number becomes [None]; nothing else changes. *)
Fixpoint nan_to_null (v : pyval) : pyval :=
  match v with
  | PFloat FNaN => PNone
  | PList l => PList (map nan_to_null l)
  | PDict d => PDict (map (fun kv => (fst kv, nan_to_null (snd kv))) d)
  | _ => v
  end.

(** A trace dictionary with one roc trace, of a sample called [NaN-7]. *)
Definition nan_named_traces : pyval :=
  PDict [ ("roc",
           PDict [("1", PList [PDict [("x", PList [PStr "0.00"]);
                                      ("y", PList []);
                                      ("text", PStr "NaN-7")]])]) ].

(** ** [parse_args] *)

(** The namespace [argparse] returns. *)
Record Args : Type := mkArgs {
  bed : string;
  roc : string;
  exclude : string;
  sex_chroms : string;
  z_threshold : pyfloat;
  distance_threshold : Z;
  slop : Z;
  gff : option string;
  output : string;
  min_samples : Z;
  ped : option string;
  sample_col : string;
  sex_col : string
}.

(** The [default=] of every option; the two positionals are filled last. *)
Definition default_args : Args :=
  {| bed := ""; roc := "";
     exclude := "^GL|^hs|^chrEBV$|M$|MT$|^NC|_random$|Un_|^HLA\-|_alt$|hap\d+$";
     sex_chroms := "X,Y";
     z_threshold := FFinite [F3; Fdot; F5];
     distance_threshold := 150000;
     slop := 500000;
     gff := None;
     output := "covviz_report.html";
     min_samples := 8;
     ped := None;
     sample_col := "sample_id";
     sex_col := "sex" |}.

Definition set_exclude (v : string) (a : Args) : Args :=
  mkArgs (bed a) (roc a) v (sex_chroms a) (z_threshold a)
         (distance_threshold a) (slop a) (gff a) (output a) (min_samples a)
         (ped a) (sample_col a) (sex_col a).
Definition set_sex_chroms (v : string) (a : Args) : Args :=
  mkArgs (bed a) (roc a) (exclude a) v (z_threshold a)
         (distance_threshold a) (slop a) (gff a) (output a) (min_samples a)
         (ped a) (sample_col a) (sex_col a).
Definition set_z_threshold (v : pyfloat) (a : Args) : Args :=
  mkArgs (bed a) (roc a) (exclude a) (sex_chroms a) v
         (distance_threshold a) (slop a) (gff a) (output a) (min_samples a)
         (ped a) (sample_col a) (sex_col a).
Definition set_distance_threshold (v : Z) (a : Args) : Args :=
  mkArgs (bed a) (roc a) (exclude a) (sex_chroms a) (z_threshold a)
         v (slop a) (gff a) (output a) (min_samples a)
         (ped a) (sample_col a) (sex_col a).
Definition set_slop (v : Z) (a : Args) : Args :=
  mkArgs (bed a) (roc a) (exclude a) (sex_chroms a) (z_threshold a)
         (distance_threshold a) v (gff a) (output a) (min_samples a)
         (ped a) (sample_col a) (sex_col a).
Definition set_gff (v : string) (a : Args) : Args :=
  mkArgs (bed a) (roc a) (exclude a) (sex_chroms a) (z_threshold a)
         (distance_threshold a) (slop a) (Some v) (output a) (min_samples a)
         (ped a) (sample_col a) (sex_col a).
Definition set_output (v : string) (a : Args) : Args :=
  mkArgs (bed a) (roc a) (exclude a) (sex_chroms a) (z_threshold a)
         (distance_threshold a) (slop a) (gff a) v (min_samples a)
         (ped a) (sample_col a) (sex_col a).
Definition set_min_samples (v : Z) (a : Args) : Args :=
  mkArgs (bed a) (roc a) (exclude a) (sex_chroms a) (z_threshold a)
         (distance_threshold a) (slop a) (gff a) (output a) v
         (ped a) (sample_col a) (sex_col a).
Definition set_ped (v : string) (a : Args) : Args :=
  mkArgs (bed a) (roc a) (exclude a) (sex_chroms a) (z_threshold a)
         (distance_threshold a) (slop a) (gff a) (output a) (min_samples a)
         (Some v) (sample_col a) (sex_col a).
Definition set_sample_col (v : string) (a : Args) : Args :=
  mkArgs (bed a) (roc a) (exclude a) (sex_chroms a) (z_threshold a)
         (distance_threshold a) (slop a) (gff a) (output a) (min_samples a)
         (ped a) v (sex_col a).
Definition set_sex_col (v : string) (a : Args) : Args :=
  mkArgs (bed a) (roc a) (exclude a) (sex_chroms a) (z_threshold a)
         (distance_threshold a) (slop a) (gff a) (output a) (min_samples a)
         (ped a) (sample_col a) v.
Definition set_positionals (b r : string) (a : Args) : Args :=
  mkArgs b r (exclude a) (sex_chroms a) (z_threshold a)
         (distance_threshold a) (slop a) (gff a) (output a) (min_samples a)
         (ped a) (sample_col a) (sex_col a).

(** One [add_argument] call for an option: its option strings and what
    storing a value does, [None] when the [type=] conversion fails. *)
Definition optdecl : Type := (list string * (string -> Args -> option Args))%type.

Definition store_int (set : Z -> Args -> Args) (v : string) (a : Args)
  : option Args :=
  option_map (fun z => set z a) (py_int v).

(** The options of [parse_args], in the order they are declared.
    [py_float] is the [float] conversion of [--z-threshold]. *)
Definition options (py_float : string -> option pyfloat) : list optdecl :=
  [ (["-e"; "--exclude"], fun v a => Some (set_exclude v a));
    (["-x"; "--sex-chroms"], fun v a => Some (set_sex_chroms v a));
    (["-z"; "--z-threshold"],
      fun v a => option_map (fun z => set_z_threshold z a) (py_float v));
    (["-d"; "--distance-threshold"], store_int set_distance_threshold);
    (["-s"; "--slop"], store_int set_slop);
    (["--gff"], fun v a => Some (set_gff v a));
    (["-o"; "--output"], fun v a => Some (set_output v a));
    (["--min-samples"], store_int set_min_samples);
    (["-p"; "--ped"], fun v a => Some (set_ped v a));
    (["--sample-col"], fun v a => Some (set_sample_col v a));
    (["--sex-col"], fun v a => Some (set_sex_col v a)) ].

Fixpoint find_option (t : string) (opts : list optdecl)
  : option (string -> Args -> option Args) :=
  match opts with
  | [] => None
  | (names, store) :: opts' =>
      if str_in t names then Some store else find_option t opts'
  end.

(** [argparse]'s test for a negative number: [-] and digits, or [-],
    optional digits, a dot and digits. *)
Fixpoint digits_dot_digits (s : string) : bool :=
  match s with
  | EmptyString => false
  | String c s' =>
      if Ascii.eqb c "."
      then negb (String.eqb s' EmptyString) && all_digits s'
      else is_digit c && digits_dot_digits s'
  end.

Definition looks_negative_number (t : string) : bool :=
  match t with
  | EmptyString => false
  | String c u =>
      Ascii.eqb c "-" &&
      ((negb (String.eqb u EmptyString) && all_digits u) || digits_dot_digits u)
  end.

Fixpoint has_space (s : string) : bool :=
  match s with
  | EmptyString => false
  | String c s' => Ascii.eqb c " " || has_space s'
  end.

(** Every option string [parse_args] declares, and with the two of the
    help action every option string of the parser. *)
Definition option_strings : list string :=
  List.concat (map fst (options (fun _ => None))).

Definition all_option_strings : list string :=
  "-h" :: "--help" :: option_strings.

(** The text before the first [=]; the whole text when it has none. *)
Fixpoint before_eq (s : string) : string :=
  match s with
  | EmptyString => EmptyString
  | String c s' =>
      if Ascii.eqb c "=" then EmptyString else String c (before_eq s')
  end.

(** [argparse]'s search for the options a token can stand for.  A token
    with two leading dashes stands for every option that starts with its
    text before [=]; a token with one stands for the option spelled by its
    first two characters, the rest being a value glued to it, and for every
    option that starts with the token. *)
Definition option_candidates (t : string) : bool :=
  match t with
  | String c1 (String c2 _) =>
      if Ascii.eqb c2 "-"
      then existsb (startswith (before_eq t)) all_option_strings
      else existsb (fun o =>
                      String.eqb o (String c1 (String c2 EmptyString))
                      || startswith t o)
                   all_option_strings
  | _ => false
  end.

(** A token with a leading dash that [argparse] does not take for an
    argument: it can stand for an option, or it neither looks like a
    negative number nor contains a space. *)
Definition looks_like_option (t : string) : bool :=
  match t with
  | String c (String _ _) =>
      Ascii.eqb c "-" &&
      (option_candidates t
       || (negb (looks_negative_number t) && negb (has_space t)))
  | _ => false
  end.

(** The command lines covered: options given by one of their full option
    strings, each followed by its value as the next token, and
    positionals anywhere.  Abbreviated names, [--name=value], values glued
    to a short option and [--] are not covered: the embedding rejects
    them.  A usage error is [SystemExit 2], [-h] is [SystemExit 0]. *)
Fixpoint parse_tokens (opts : list optdecl) (argv : list string) (a : Args)
  (positionals : list string) : result (Args * list string) :=
  match argv with
  | [] => ret (a, positionals)
  | t :: rest =>
      if str_in t ["-h"; "--help"] then raise (SystemExit 0)
      else
        match find_option t opts with
        | Some store =>
            match rest with
            | [] => raise (SystemExit 2)
            | v :: rest' =>
                if looks_like_option v || str_in v ["-h"; "--help"]
                   || match find_option v opts with
                      | Some _ => true
                      | None => false
                      end
                then raise (SystemExit 2)
                else
                  match store v a with
                  | None => raise (SystemExit 2)
                  | Some a' => parse_tokens opts rest' a' positionals
                  end
            end
        | None =>
            if looks_like_option t then raise (SystemExit 2)
            else parse_tokens opts rest a (positionals ++ [t])
        end
  end.

(** [parse_args()], for the command line [argv] (without the program
    name). *)
Definition parse_args (py_float : string -> option pyfloat)
  (argv : list string) : result Args :=
  r <- parse_tokens (options py_float) argv default_args [] ;;
  match r with
  | (a, [b; r]) => ret (set_positionals b r a)
  | _ => raise (SystemExit 2)
  end.

(** ** The world [cli] runs in *)

(** Files by path, and the lines logged to the standard error stream.  A
    file is identified with the text of its path: two spellings of one
    file are not told apart from two files. *)
Record world : Type := mkWorld {
  files : dict string;
  stderr : list string
}.

(** What [cli] calls and [covviz.py] does not define. *)
Record Env : Type := mkEnv {
  (** [float], as the [type=] of [--z-threshold] *)
  py_float : string -> option pyfloat;
  (** [parse_bed(bed, exclude, ped, sample_col, sex_col, sex_chroms,
      z_threshold, distance_threshold, slop, min_samples)] *)
  parse_bed : dict string -> string -> string -> option string -> string ->
              string -> string -> pyfloat -> Z -> Z -> Z ->
              result (dict pyval * list string);
  (** [parse_gff(gff, traces)] *)
  parse_gff : dict string -> option string -> dict pyval -> result (dict pyval);
  (** [parse_ped(ped, traces, sample_col, sex_chroms)] *)
  parse_ped : dict string -> string -> dict pyval -> string -> string ->
              result (dict pyval);
  (** [gzopen(path)] read through [csv.reader] with tab as delimiter *)
  gzopen : dict string -> string -> result table;
  (** whether [open(path, "w")] succeeds *)
  writable : dict string -> string -> bool;
  (** [env.get_template("covviz.html").render(data=...)] *)
  render : string -> result string;
  (** [LZString().compressToBase64] *)
  compressToBase64 : string -> string
}.

Definition IO (A : Type) : Type := world -> result A * world.

Definition io_ret {A} (a : A) : IO A := fun w => (inr a, w).
Definition io_bind {A B} (c : IO A) (k : A -> IO B) : IO B :=
  fun w =>
    match c w with
    | (inl e, w') => (inl e, w')
    | (inr a, w') => k a w'
    end.

Declare Scope io_scope.
Delimit Scope io_scope with io.
Notation "x <- c ;; k" := (io_bind c (fun x => k))
  (at level 61, c at next level, right associativity) : io_scope.

(** A computation that only reads the files. *)
Definition reading {A} (f : dict string -> result A) : IO A :=
  fun w => (f (files w), w).

(** [logger.info(msg)] with the format ["[%(levelname)s] %(message)s"]. *)
Definition logger_info (msg : string) : IO unit :=
  fun w => (inr tt, mkWorld (files w) (stderr w ++ [("[INFO] " ++ msg)%string])).

(** [open(path, "w")]: the file is created or truncated. *)
Definition open_w (can_write : dict string -> string -> bool) (path : string)
  : IO unit :=
  fun w =>
    if can_write (files w) path
    then (inr tt, mkWorld (dict_set path EmptyString (files w)) (stderr w))
    else (inl (OSError path), w).

(** [print(text, file=fh)] *)
Definition print_to (path text : string) : IO unit :=
  fun w =>
    let old := match dict_get path (files w) with
               | Some s => s
               | None => EmptyString
               end in
    (inr tt,
     mkWorld (dict_set path (old ++ text ++ String "010" EmptyString)%string
                       (files w))
             (stderr w)).

(** [str(x)] for an optional string. *)
Definition str_of_option (o : option string) : string :=
  match o with
  | None => "None"
  | Some s => s
  end.

(** The truth value of an optional string. *)
Definition truthy (o : option string) : bool :=
  match o with
  | None => false
  | Some s => negb (String.eqb s EmptyString)
  end.

(** ** [cli] *)

Local Open Scope io_scope.

Definition cli (E : Env) (argv : list string) : IO unit :=
  args <- reading (fun _ => parse_args (py_float E) argv) ;;
  let exclude' := replace "," "|" (replace "~" "" (exclude args)) in
  _ <- logger_info ("parsing bed file (" ++ bed args ++ ")") ;;
  ts <- reading (fun fs =>
          parse_bed E fs (bed args) (exclude args) (ped args) (sample_col args)
                    (sex_col args) (sex_chroms args) (z_threshold args)
                    (distance_threshold args) (slop args) (min_samples args)) ;;
  let traces := fst ts in
  let samples := snd ts in
  _ <- logger_info ("parsing gff file (" ++ str_of_option (gff args) ++ ")") ;;
  traces <- reading (fun fs => parse_gff E fs (gff args) traces) ;;
  _ <- logger_info ("parsing roc file (" ++ roc args ++ ")") ;;
  traces <- reading (fun fs => parse_roc (gzopen E fs (roc args)) traces samples) ;;
  traces <- (if truthy (ped args)
             then
               _ <- logger_info ("parsing ped file (" ++ str_of_option (ped args)
                                 ++ ")") ;;
               reading (fun fs =>
                 parse_ped E fs (str_of_option (ped args)) traces
                           (sample_col args) (sex_chroms args))
             else io_ret traces) ;;
  _ <- open_w (writable E) (output args) ;;
  let compressed_json_data := compress_data (compressToBase64 E) (PDict traces) in
  html <- reading (fun _ => render E compressed_json_data) ;;
  _ <- print_to (output args) html ;;
  logger_info "processing complete".

Local Close Scope io_scope.

(** ** Vocabulary used to state what [parse_roc] does *)

(** The value of the [#chrom] field of a line, as the reader returns it. *)
Definition line_chrom (fieldnames line : list string) : option cell :=
  dict_get "#chrom" (DictReader_row fieldnames line).

(** A line whose chromosome field is the header token. *)
Definition repeated_header (fieldnames line : list string) : bool :=
  match line_chrom fieldnames line with
  | Some (Some c) => String.eqb c "#chrom"
  | _ => false
  end.

(** A line whose normalised chromosome is not an established one. *)
Definition foreign_chrom (fieldnames chroms line : list string) : bool :=
  match line_chrom fieldnames line with
  | Some (Some c) => negb (str_in (strip "chr" c) chroms)
  | _ => false
  end.

(** Subscripting a trace, and the [text] labels of a list of traces. *)
Definition trace_field (key : string) (t : pyval) : option pyval :=
  match t with
  | PDict d => dict_get key d
  | _ => None
  end.

Definition is_line_trace (t : pyval) : Prop :=
  trace_field "mode" t = Some (PStr "lines").

(** The roc traces stored for a chromosome in a trace dictionary. *)
Definition roc_traces (chr : string) (traces : dict pyval)
  : option (list pyval) :=
  match dict_get "roc" traces with
  | Some (PDict roc) =>
      match dict_get chr roc with
      | Some (PList l) => Some l
      | _ => None
      end
  | _ => None
  end.

(** A small cohort used to run the definitions: two chromosomes, two
    samples, a repeated header and a line of an unplaced contig. *)
Definition demo_traces : dict pyval :=
  [ ("1", PList []); ("X", PList []);
    ("chromosomes", PList [PStr "1"; PStr "X"]) ].

Definition demo_samples : list string := ["s1"; "s2"].

Definition demo_roc : table :=
  [ ["#chrom"; "cov"; "s1"; "s2"];
    ["1"; "0.00"; "1.00"; "1.00"];
    ["1"; "0.01"; "0.98"; "0.97"];
    ["#chrom"; "cov"; "s1"; "s2"];
    ["chrX"; "0.00"; "1.00"; "1.00"];
    ["GL000207.1"; "0.00"; "1.00"; "1.00"] ].

(** The rows the first loop collects for a chromosome: those whose
    chromosome field is not the header token and normalises to [chr]. *)
Definition matches_chrom (chr : string) (r : row) : bool :=
  match dict_get "#chrom" r with
  | Some (Some c) =>
      negb (String.eqb c "#chrom") && String.eqb (strip "chr" c) chr
  | _ => false
  end.

Definition collected (chr : string) (rows : list row) : list row :=
  filter (matches_chrom chr) rows.

(** The column of a field over a list of rows. *)
Definition column (key : string) (rows : list row) : list pyval :=
  map (fun r => match dict_get key r with
                | Some c => cell_val c
                | None => PNone
                end) rows.

Definition plist_length (v : option pyval) : option nat :=
  match v with
  | Some (PList l) => Some (List.length l)
  | _ => None
  end.

(** A cohort in which a sample is called [x], and a trace dictionary in
    which a contig is called [roc]. *)
Definition x_samples : list string := ["x"; "a"].

Definition x_roc : table :=
  [ ["#chrom"; "cov"; "x"; "a"];
    ["1"; "0.00"; "1.00"; "0.99"] ].

Definition roc_contig_traces : dict pyval :=
  [ ("roc", PList [PDict [("text", PStr "s1")]]);
    ("chromosomes", PList [PStr "roc"]) ].







(** ** Vocabulary used to state what [cli] does *)

(** The call [cli] makes to the bed parser for the arguments [a]. *)
Definition bed_call (E : Env) (a : Args) (fs : dict string)
  : result (dict pyval * list string) :=
  parse_bed E fs (bed a) (exclude a) (ped a) (sample_col a) (sex_col a)
            (sex_chroms a) (z_threshold a) (distance_threshold a) (slop a)
            (min_samples a).


(** Two environments that differ at most in their bed parser. *)
Definition same_but_parse_bed (E E' : Env) : Prop :=
  py_float E' = py_float E /\ parse_gff E' = parse_gff E /\
  parse_ped E' = parse_ped E /\ gzopen E' = gzopen E /\
  writable E' = writable E /\ render E' = render E /\
  compressToBase64 E' = compressToBase64 E.

(** An environment to run [cli] in: the bed parser yields the
    demonstration cohort when the coverage table exists, the other two
    parsers add nothing, every existing [.roc] file holds the
    demonstration table, every path can be written, the template wraps its
    data in a [script] element and the codec is the identity. *)
Definition demo_env : Env :=
  {| py_float := fun _ => None;
     parse_bed := fun fs bed _ _ _ _ _ _ _ _ _ =>
       match dict_get bed fs with
       | Some _ => inr (demo_traces, demo_samples)
       | None => inl (OSError bed)
       end;
     parse_gff := fun _ _ traces => inr traces;
     parse_ped := fun _ _ traces _ _ => inr traces;
     gzopen := fun fs path =>
       match dict_get path fs with
       | Some _ => inr demo_roc
       | None => inl (OSError path)
       end;
     writable := fun _ _ => true;
     render := fun data => inr ("<script>" ++ data ++ "</script>")%string;
     compressToBase64 := fun s => s |}.


Definition demo_world : world :=
  {| files := [("cov.bed", "bed"); ("cov.roc", "roc")]; stderr := [] |}.


(** The text of an integer: digits, possibly after a minus sign. *)
Definition num_text (t : string) : bool :=
  match t with
  | EmptyString => false
  | String c r =>
      (is_digit c && all_digits r) ||
      (Ascii.eqb c "-" && negb (String.eqb r EmptyString) && all_digits r)
  end.

(** An option string: a dash, then a character that is not a digit. *)
Definition dash_name (n : string) : bool :=
  match n with
  | String c (String c' _) => Ascii.eqb c "-" && negb (is_digit c')
  | _ => false
  end.

(** The command line that sets both thresholds. *)
Definition threshold_argv (d s : Z) : list string :=
  ["cov.bed"; "cov.roc"; "-d"; string_of_Z d; "-s"; string_of_Z s].

Definition threshold_args (d s : Z) : Args :=
  set_positionals "cov.bed" "cov.roc"
    (set_slop s (set_distance_threshold d default_args)).

(** ** Vocabulary used to state what [compress_data] does *)

(** What [nan_named_traces] becomes with the sample's name rewritten. *)
Definition null_named_traces : pyval :=
  PDict [ ("roc",
           PDict [("1", PList [PDict [("x", PList [PStr "0.00"]);
                                      ("y", PList []);
                                      ("text", PStr "null-7")]])]) ].

(** The text [NaN] occurs in a string. *)
Fixpoint has_NaN (s : string) : bool :=
  match s with
  | EmptyString => false
  | String _ s' => startswith "NaN" s || has_NaN s'
  end.

(** No string and no key of a value contains the text [NaN]. *)
Fixpoint nan_free (v : pyval) : bool :=
  match v with
  | PStr s => negb (has_NaN s)
  | PList l => forallb nan_free l
  | PDict d =>
      forallb (fun kv => negb (has_NaN (fst kv)) && nan_free (snd kv)) d
  | _ => true
  end.

(** No character of a string is [N]. *)
Fixpoint no_N (s : string) : bool :=
  match s with
  | EmptyString => true
  | String c s' => negb (Ascii.eqb c "N") && no_N s'
  end.

(** A text that cannot complete an occurrence of [NaN] begun before it. *)
Definition ok_start (s : string) : bool :=
  match s with
  | EmptyString => true
  | String c _ => negb (Ascii.eqb c "N") && negb (Ascii.eqb c "a")
  end.

(** Every character of a pattern is one the encoder leaves as it is. *)
Fixpoint plain (p : string) : bool :=
  match p with
  | EmptyString => true
  | String c p' =>
      String.eqb (escape_char c) (String c EmptyString) &&
      negb (Ascii.eqb c backslash) && plain p'
  end.

(** The encoder leaves a character as it is, or replaces it by an escape
    that starts with a backslash and has no [N]. *)
Definition escape_char_ok (c : ascii) : bool :=
  String.eqb (escape_char c) (String c EmptyString) ||
  (startswith (String backslash EmptyString) (escape_char c) &&
   no_N (escape_char c) &&
   negb (String.eqb (escape_char c) (String c EmptyString))).

(** The scan for [NaN], with nothing of an occurrence left to skip. *)
Abbreviation scan := (replace_scan "NaN" "null" 0).

(** [x] serialises to a text the scan turns into [x'], whatever follows. *)
Definition scans_to (x x' : string) : Prop :=
  forall rest, ok_start rest = true ->
               scan (x ++ rest) = (x' ++ scan rest)%string.

(** ** Vocabulary for the lines of a coverage-distribution file *)

(** The field of a line at a position, as it reaches a trace: the text,
    or [None] where the line is too short. *)
Definition field (i : nat) (line : list string) : pyval :=
  cell_val (nth_error line i).

(** A line, read under a header whose first column is [#chrom], that is
    not a repeated header and whose chromosome normalises to [chr]. *)
Definition line_matches (chr : string) (line : list string) : bool :=
  match line with
  | [] => false
  | c :: _ => negb (String.eqb c "#chrom") && String.eqb (strip "chr" c) chr
  end.

(** A line the first loop collects for some established chromosome. *)
Definition line_collected (chroms line : list string) : bool :=
  match line with
  | [] => false
  | c :: _ => negb (String.eqb c "#chrom") && str_in (strip "chr" c) chroms
  end.

(** The first character of a name is one that [strip("chr")] removes. *)
Definition starts_stripped (chr : string) : bool :=
  match chr with
  | EmptyString => false
  | String c _ => chr_in c "chr"
  end.

Fixpoint last_char (s : string) : option ascii :=
  match s with
  | EmptyString => None
  | String c EmptyString => Some c
  | String _ s' => last_char s'
  end.

(** A text that is empty or whose two ends are outside [chars]. *)
Definition edge_free (chars s : string) : bool :=
  match s with
  | EmptyString => true
  | String c _ =>
      negb (chr_in c chars) &&
      match last_char s with
      | Some l => negb (chr_in l chars)
      | None => true
      end
  end.

(** Every character of a text is in [chars]. *)
Fixpoint all_in (chars s : string) : bool :=
  match s with
  | EmptyString => true
  | String c s' => chr_in c chars && all_in chars s'
  end.

(** A character from space to tilde. *)
Definition printable (c : ascii) : bool :=
  (32 <=? nat_of_ascii c)%nat && (nat_of_ascii c <=? 126)%nat.

Fixpoint all_printable (s : string) : bool :=
  match s with
  | EmptyString => true
  | String c s' => printable c && all_printable s'
  end.

(** ** Vocabulary for a whole run *)

(** The four parsing stages, one after the other, on the same files. *)
Definition parsed (E : Env) (a : Args) (fs : dict string)
  : result (dict pyval) :=
  ts <- bed_call E a fs ;;
  traces <- parse_gff E fs (gff a) (fst ts) ;;
  traces <- parse_roc (gzopen E fs (roc a)) traces (snd ts) ;;
  if truthy (ped a)
  then parse_ped E fs (str_of_option (ped a)) traces (sample_col a)
                 (sex_chroms a)
  else ret traces.

(** The lines logged while the stages run. *)
Definition stage_log (a : Args) : list string :=
  [ ("[INFO] parsing bed file (" ++ bed a ++ ")")%string;
    ("[INFO] parsing gff file (" ++ str_of_option (gff a) ++ ")")%string;
    ("[INFO] parsing roc file (" ++ roc a ++ ")")%string ] ++
  (if truthy (ped a)
   then [("[INFO] parsing ped file (" ++ str_of_option (ped a) ++ ")")%string]
   else []).

(** Two environments that differ at most in their ped parser. *)
Definition same_but_parse_ped (E E' : Env) : Prop :=
  py_float E' = py_float E /\ parse_bed E' = parse_bed E /\
  parse_gff E' = parse_gff E /\ gzopen E' = gzopen E /\
  writable E' = writable E /\ render E' = render E /\
  compressToBase64 E' = compressToBase64 E.

(** The demonstration environment with a ped parser that always fails,
    with an output path that cannot be written, and with a template that
    cannot be rendered. *)
Definition no_ped_env : Env :=
  mkEnv (py_float demo_env) (parse_bed demo_env) (parse_gff demo_env)
        (fun _ ped _ _ _ => inl (OSError ped))
        (gzopen demo_env) (writable demo_env) (render demo_env)
        (compressToBase64 demo_env).

Definition readonly_env : Env :=
  mkEnv (py_float demo_env) (parse_bed demo_env) (parse_gff demo_env)
        (parse_ped demo_env) (gzopen demo_env) (fun _ _ => false)
        (render demo_env) (compressToBase64 demo_env).

Definition no_template_env : Env :=
  mkEnv (py_float demo_env) (parse_bed demo_env) (parse_gff demo_env)
        (parse_ped demo_env) (gzopen demo_env) (writable demo_env)
        (fun _ => inl (OtherError "TemplateNotFound" "covviz.html"))
        (compressToBase64 demo_env).

(** A world in which a report is already at the default output path. *)
Definition rerun_world : world :=
  {| files := [("cov.bed", "bed"); ("cov.roc", "roc");
               ("covviz_report.html", "an earlier report")];
     stderr := [] |}.

(** ** Vocabulary for command lines *)

(** A token that [parse_tokens] takes for a positional. *)
Definition is_positional (t : string) : bool :=
  negb (str_in t ["-h"; "--help"]) && negb (str_in t option_strings) &&
  negb (looks_like_option t).

(** The lines of [demo_roc] with the chromosomes in another order. *)
Definition shuffled_roc : table :=
  [ ["#chrom"; "cov"; "s1"; "s2"];
    ["chrX"; "0.00"; "1.00"; "1.00"];
    ["1"; "0.00"; "1.00"; "1.00"];
    ["GL000207.1"; "0.00"; "1.00"; "1.00"];
    ["1"; "0.01"; "0.98"; "0.97"] ].

(** * Properties *)

(** ** The error monad and loops *)

Lemma bind_inr {A B} (c : result A) (k : A -> result B) (b : B) :
  bind c k = inr b -> exists a, c = inr a /\ k a = inr b.
Proof.
  destruct c as [e | a]; simpl; intros H; [discriminate | eauto].
Qed.

Lemma for_each_app {A S} (body : A -> S -> result S) (l1 l2 : list A) (s : S) :
  for_each body (l1 ++ l2) s = (s' <- for_each body l1 s ;; for_each body l2 s').
Proof.
  revert s; induction l1 as [| a l1 IH]; intros s; simpl; [reflexivity |].
  destruct (body a s) as [e | s']; simpl; [reflexivity | apply IH].
Qed.

(** Elements on which the body does nothing can be filtered out. *)
Lemma for_each_filter {A S} (body : A -> S -> result S) (keep : A -> bool)
  (l : list A) (s : S) :
  (forall a, keep a = false -> forall s, body a s = ret s) ->
  for_each body (filter keep l) s = for_each body l s.
Proof.
  intros Hskip; revert s; induction l as [| a l IH]; intros s; simpl;
    [reflexivity |].
  destruct (keep a) eqn:Hk; simpl.
  - destruct (body a s); simpl; [reflexivity | apply IH].
  - rewrite (Hskip a Hk s); simpl; apply IH.
Qed.

Lemma for_each_total {A S} (body : A -> S -> result S) (l : list A) (s : S) :
  (forall a, In a l -> forall s, exists s', body a s = inr s') ->
  exists s', for_each body l s = inr s'.
Proof.
  revert s; induction l as [| a l IH]; intros s Hok; simpl; [eexists; reflexivity |].
  destruct (Hok a (or_introl eq_refl) s) as [s' ->]; simpl.
  apply IH; intros; apply Hok; right; assumption.
Qed.

Lemma Forall2_In_right {A B} (P : A -> B -> Prop) (la : list A) (lb : list B)
  (b : B) :
  Forall2 P la lb -> In b lb -> exists a, In a la /\ P a b.
Proof.
  induction 1 as [| a b' la lb Hab _ IH]; simpl; [contradiction |].
  intros [<- | Hin]; [eauto |].
  destruct (IH Hin) as (a' & Ha' & HP); eauto.
Qed.

Lemma fold_append_map {A B} (f : A -> B) (l : list A) (acc : list B) :
  fold_left (fun l a => l ++ [f a]) l acc = acc ++ map f l.
Proof.
  revert acc; induction l as [| a l IH]; intros acc; simpl.
  - now rewrite app_nil_r.
  - rewrite IH, <- app_assoc; reflexivity.
Qed.

(** ** Strings *)

Lemma str_in_In (x : string) (l : list string) : str_in x l = true <-> In x l.
Proof.
  unfold str_in; rewrite existsb_exists; split.
  - intros [y [Hy Heq]]; apply String.eqb_eq in Heq; now subst.
  - intros H; exists x; split; [assumption | apply String.eqb_refl].
Qed.

Lemma str_in_false (x : string) (l : list string) :
  str_in x l = false <-> ~ In x l.
Proof.
  rewrite <- str_in_In; destruct (str_in x l); split; congruence.
Qed.

Lemma lstrip_head (chars s : string) (a : ascii) (t : string) :
  lstrip chars s = String a t -> chr_in a chars = false.
Proof.
  induction s as [| c s IH]; simpl; [discriminate |].
  destruct (chr_in c chars) eqn:Hc; [exact IH |].
  intros H; injection H as -> _; exact Hc.
Qed.

Lemma rstrip_head (chars s : string) (a : ascii) (t : string) :
  rstrip chars s = String a t -> exists t', s = String a t'.
Proof.
  destruct s as [| c s]; simpl; [discriminate |].
  destruct (rstrip chars s); [destruct (chr_in c chars) |]; intros H;
    try discriminate; injection H as -> _; eauto.
Qed.

(** What [strip] returns never starts with a stripped character. *)
Lemma strip_head (chars s : string) (a : ascii) (t : string) :
  strip chars s = String a t -> chr_in a chars = false.
Proof.
  unfold strip; intros H.
  destruct (rstrip_head _ _ _ _ H) as [t' Ht'].
  exact (lstrip_head _ _ _ _ Ht').
Qed.

Lemma strip_chr_not_roc (c : string) : strip "chr" c <> "roc".
Proof.
  intros H; apply strip_head in H; discriminate.
Qed.

Lemma strip_chr_not_chromosomes (c : string) : strip "chr" c <> "chromosomes".
Proof.
  intros H; apply strip_head in H; discriminate.
Qed.

(** ** Dictionaries *)

Section DictFacts.
Context {V : Type}.
Implicit Types (d : dict V) (k : string) (v : V).

Lemma dict_get_set_same k v d : dict_get k (dict_set k v d) = Some v.
Proof.
  induction d as [| [k' v'] d IH]; simpl.
  - now rewrite String.eqb_refl.
  - destruct (String.eqb k k') eqn:E; simpl; rewrite ?String.eqb_refl, ?E;
      [reflexivity | exact IH].
Qed.

Lemma dict_get_set_other k k' v d :
  k <> k' -> dict_get k (dict_set k' v d) = dict_get k d.
Proof.
  intros Hne; induction d as [| [k0 v0] d IH]; simpl.
  - apply String.eqb_neq in Hne; now rewrite Hne.
  - destruct (String.eqb k' k0) eqn:E; simpl.
    + apply String.eqb_eq in E; subst k0.
      apply String.eqb_neq in Hne; now rewrite Hne.
    + destruct (String.eqb k k0); [reflexivity | exact IH].
Qed.

Lemma dict_keys_set k k' v d :
  In k (dict_keys (dict_set k' v d)) <-> k = k' \/ In k (dict_keys d).
Proof.
  unfold dict_keys; induction d as [| [k0 v0] d IH]; simpl.
  - intuition.
  - destruct (String.eqb k' k0) eqn:E; simpl.
    + apply String.eqb_eq in E; subst k0; intuition.
    + rewrite IH; intuition.
Qed.

Lemma dict_get_keys k d : dict_get k d <> None <-> In k (dict_keys d).
Proof.
  unfold dict_keys; induction d as [| [k0 v0] d IH]; simpl.
  - intuition.
  - destruct (String.eqb k k0) eqn:E.
    + apply String.eqb_eq in E; subst; intuition discriminate.
    + apply String.eqb_neq in E; rewrite IH; intuition congruence.
Qed.
End DictFacts.

(** ** [csv.DictReader] rows *)

Lemma dict_zip_keys (fieldnames line : list string) (d : row) (k : string) :
  In k (dict_keys (dict_zip fieldnames line d)) <->
  In k (firstn (List.length line) fieldnames) \/ In k (dict_keys d).
Proof.
  revert line d; induction fieldnames as [| f fs IH]; intros line d.
  - destruct line; simpl; intuition.
  - destruct line as [| v vs]; simpl; [intuition |].
    rewrite IH, dict_keys_set; intuition.
Qed.

Lemma fold_set_none_keys (ks : list string) (d : row) (k : string) :
  In k (dict_keys (fold_left (fun d k => dict_set k None d) ks d)) <->
  In k ks \/ In k (dict_keys d).
Proof.
  revert d; induction ks as [| k0 ks IH]; intros d; simpl; [intuition |].
  rewrite IH, dict_keys_set; intuition.
Qed.

(** Every row has exactly the header's keys. *)
Lemma DictReader_row_keys (fieldnames line : list string) (k : string) :
  In k (dict_keys (DictReader_row fieldnames line)) <-> In k fieldnames.
Proof.
  unfold DictReader_row.
  rewrite fold_set_none_keys, dict_zip_keys; simpl.
  assert (E : In k fieldnames <->
              In k (firstn (List.length line) fieldnames) \/
              In k (skipn (List.length line) fieldnames))
    by (rewrite <- in_app_iff, firstn_skipn; reflexivity).
  rewrite E; intuition.
Qed.

Lemma DictReader_row_item (fieldnames line : list string) (k : string) :
  In k fieldnames ->
  exists c, dict_item k (DictReader_row fieldnames line) = inr c.
Proof.
  intros Hk; apply DictReader_row_keys with (line := line) in Hk.
  apply dict_get_keys in Hk; unfold dict_item.
  destruct (dict_get k (DictReader_row fieldnames line)); [eauto | congruence].
Qed.

Lemma fold_set_none_other (ks : list string) (d : row) (k : string) :
  ~ In k ks ->
  dict_get k (fold_left (fun d k => dict_set k None d) ks d) = dict_get k d.
Proof.
  revert d; induction ks as [| k0 ks IH]; intros d Hk; simpl; [reflexivity |].
  rewrite IH by (simpl in Hk; intuition).
  apply dict_get_set_other; simpl in Hk; intuition.
Qed.

Lemma dict_zip_other (fieldnames line : list string) (d : row) (k : string) :
  ~ In k fieldnames ->
  dict_get k (dict_zip fieldnames line d) = dict_get k d.
Proof.
  revert line d; induction fieldnames as [| f fs IH]; intros line d Hk.
  - destruct line; reflexivity.
  - destruct line as [| v vs]; simpl; [reflexivity |].
    rewrite IH by (simpl in Hk; intuition).
    apply dict_get_set_other; simpl in Hk; intuition.
Qed.

(** With [#chrom] as the first and only such column, a line that is not
    blank carries its first field as chromosome. *)
Lemma line_chrom_first (cols : list string) (c : string) (rest : list string) :
  ~ In "#chrom" cols ->
  line_chrom ("#chrom" :: cols) (c :: rest) = Some (Some c).
Proof.
  intros Hcols; unfold line_chrom, DictReader_row.
  rewrite fold_set_none_other.
  - simpl; rewrite dict_zip_other by assumption; reflexivity.
  - simpl; intros Hin; apply Hcols.
    rewrite <- (firstn_skipn (List.length rest) cols), in_app_iff; now right.
Qed.

(** ** [parse_roc]: rows that are skipped *)

Lemma roc_row_repeated_header (keys samples fieldnames line : list string)
  (data : rocdata) :
  repeated_header fieldnames line = true ->
  roc_row keys samples (DictReader_row fieldnames line) data = ret data.
Proof.
  unfold repeated_header, line_chrom, roc_row, dict_item.
  destruct (dict_get "#chrom" (DictReader_row fieldnames line)) as [[c |] |];
    try discriminate.
  simpl; intros ->; reflexivity.
Qed.

Lemma filter_filter_comm {A} (p q : A -> bool) (l : list A) :
  filter p (filter q l) = filter q (filter p l).
Proof.
  induction l as [| a l IH]; simpl; [reflexivity |].
  destruct (q a) eqn:Hq, (p a) eqn:Hp; simpl; rewrite ?Hq, ?Hp, IH; reflexivity.
Qed.

(** Lines that the loop body skips may be removed from the file. *)
Lemma parse_roc_drop_skipped (fieldnames : list string) (lines : table)
  (traces : dict pyval) (samples : list string) (keep : list string -> bool) :
  (forall line data, keep line = false ->
     roc_row (dict_keys (dict_set "roc" (PDict []) traces)) samples
             (DictReader_row fieldnames line) data = ret data) ->
  parse_roc (inr (fieldnames :: filter keep lines)) traces samples =
  parse_roc (inr (fieldnames :: lines)) traces samples.
Proof.
  intros Hskip; unfold parse_roc.
  destruct (roc_chroms traces) as [e | chroms]; simpl; [reflexivity |].
  rewrite filter_filter_comm.
  set (body := roc_row _ samples).
  assert (E : forall (l : table) data,
             for_each body (map (DictReader_row fieldnames) (filter keep l)) data =
             for_each body (map (DictReader_row fieldnames) l) data).
  { induction l as [| a l IHl]; intros data; simpl; [reflexivity |].
    destruct (keep a) eqn:Hk; simpl.
    - destruct (body _ data); simpl; [reflexivity | apply IHl].
    - unfold body at 2; rewrite (Hskip a data Hk); simpl; apply IHl. }
  rewrite E; reflexivity.
Qed.

(** C3: in [parse_roc], every line of the coverage-distribution file whose
    chromosome field equals the header token ["#chrom"] is skipped: the
    outcome of [parse_roc], traces and failures alike, is the one obtained
    from the file with all those lines removed, so such a line contributes
    no point to any trace. *)
Theorem parse_roc_skips_repeated_header (fieldnames : list string)
  (lines : table) (traces : dict pyval) (samples : list string) :
  parse_roc
    (inr (fieldnames ::
          filter (fun l => negb (repeated_header fieldnames l)) lines))
    traces samples =
  parse_roc (inr (fieldnames :: lines)) traces samples.
Proof.
  apply parse_roc_drop_skipped; intros line data Hk.
  apply roc_row_repeated_header.
  now apply negb_false_iff in Hk.
Qed.

(** ** [parse_roc]: the established chromosomes *)

Lemma list_pop_index_In (x k : string) (l : list string) (i : nat) :
  list_index x l = Some i -> In k l -> k = x \/ In k (list_pop i l).
Proof.
  revert i; induction l as [| y l IH]; intros i; simpl; [intuition |].
  destruct (String.eqb x y) eqn:E.
  - apply String.eqb_eq in E; subst y.
    intros [= <-] [-> | Hin]; [now left | now right].
  - destruct (list_index x l) as [j |]; simpl; [| discriminate].
    intros [= <-] [-> | Hin]; simpl; [right; now left |].
    destruct (IH j eq_refl Hin); [now left | right; now right].
Qed.

Lemma list_index_In (x : string) (l : list string) :
  In x l <-> list_index x l <> None.
Proof.
  induction l as [| y l IH]; cbn [list_index In]; [intuition |].
  destruct (String.eqb x y) eqn:E.
  - apply String.eqb_eq in E; subst; intuition discriminate.
  - apply String.eqb_neq in E; rewrite IH.
    destruct (list_index x l); simpl; intuition congruence.
Qed.

Lemma list_pop_In (k : string) (l : list string) (i : nat) :
  In k (list_pop i l) -> In k l.
Proof.
  revert i; induction l as [| y l IH]; intros i; destruct i; simpl; intuition.
  right; eapply IH; eassumption.
Qed.

Lemma roc_chroms_keys (traces : dict pyval) (chroms : list string) (k : string) :
  roc_chroms traces = inr chroms ->
  In k (dict_keys traces) -> k = "chromosomes" \/ In k chroms.
Proof.
  unfold roc_chroms.
  destruct (list_index "chromosomes" (dict_keys traces)) as [i |] eqn:E;
    [| discriminate].
  intros [= <-]; eapply list_pop_index_In; eassumption.
Qed.

Lemma roc_row_foreign (traces : dict pyval) (chroms samples : list string)
  (fieldnames line : list string) (data : rocdata) :
  roc_chroms traces = inr chroms ->
  foreign_chrom fieldnames chroms line = true ->
  roc_row (dict_keys (dict_set "roc" (PDict []) traces)) samples
          (DictReader_row fieldnames line) data = ret data.
Proof.
  intros Hch; unfold foreign_chrom, line_chrom, roc_row, dict_item.
  destruct (dict_get "#chrom" (DictReader_row fieldnames line)) as [[c |] |];
    try discriminate.
  simpl; intros Hf; apply negb_true_iff, str_in_false in Hf.
  destruct (String.eqb c "#chrom"); [reflexivity |].
  destruct (str_in (strip "chr" c) _) eqn:Hin; [| reflexivity].
  exfalso; apply str_in_In, dict_keys_set in Hin.
  destruct Hin as [Hroc | Hin]; [exact (strip_chr_not_roc _ Hroc) |].
  destruct (roc_chroms_keys _ _ _ Hch Hin) as [Hc | Hc];
    [exact (strip_chr_not_chromosomes _ Hc) | exact (Hf Hc)].
Qed.

(** C5: in [parse_roc], every line whose chromosome, after the [chr]
    characters are stripped, is not among the established chromosomes
    (the keys of the incoming trace dictionary other than
    ["chromosomes"]) is ignored: the outcome is the one obtained from the
    file with all those lines removed, so no such line contributes a point
    to any trace. *)
Theorem parse_roc_ignores_foreign_chrom (fieldnames : list string)
  (lines : table) (traces : dict pyval) (samples chroms : list string) :
  roc_chroms traces = inr chroms ->
  parse_roc
    (inr (fieldnames ::
          filter (fun l => negb (foreign_chrom fieldnames chroms l)) lines))
    traces samples =
  parse_roc (inr (fieldnames :: lines)) traces samples.
Proof.
  intros Hch; apply parse_roc_drop_skipped; intros line data Hk.
  eapply roc_row_foreign; [eassumption |].
  now apply negb_false_iff in Hk.
Qed.

Lemma parse_roc_ignores_foreign_chrom_witness :
  roc_chroms demo_traces = inr ["1"; "X"] /\
  parse_roc
    (inr (hd [] demo_roc ::
          filter (fun l => negb (foreign_chrom (hd [] demo_roc) ["1"; "X"] l))
                 (tl demo_roc)))
    demo_traces demo_samples =
  parse_roc (inr (hd [] demo_roc :: tl demo_roc)) demo_traces demo_samples.
Proof.
  split; [reflexivity |].
  apply (parse_roc_ignores_foreign_chrom
           (hd [] demo_roc) (tl demo_roc) demo_traces demo_samples ["1"; "X"]).
  reflexivity.
Defined.

(** ** [parse_roc]: the traces that are emitted *)

Lemma roc_emit_fold_get (data : rocdata) (samples chroms : list string)
  (acc : dict pyval) (chr : string) :
  dict_get chr
    (fold_left
       (fun roc chr =>
          dict_set chr
            (PList (fold_left (fun l sample => l ++ [roc_trace data chr sample])
                              samples []))
            roc)
       chroms acc) =
  if str_in chr chroms then Some (PList (map (roc_trace data chr) samples))
  else dict_get chr acc.
Proof.
  revert acc; induction chroms as [| c chroms IH]; intros acc; simpl;
    [reflexivity |].
  rewrite IH; fold (str_in chr chroms).
  destruct (str_in chr chroms); [now rewrite orb_true_r |].
  rewrite orb_false_r.
  destruct (String.eqb chr c) eqn:E.
  - apply String.eqb_eq in E; subst c.
    rewrite dict_get_set_same, fold_append_map; reflexivity.
  - apply String.eqb_neq in E; now apply dict_get_set_other.
Qed.

Lemma roc_emit_get (data : rocdata) (samples chroms : list string) (chr : string) :
  dict_get chr (roc_emit data samples chroms) =
  if str_in chr chroms then Some (PList (map (roc_trace data chr) samples))
  else None.
Proof. unfold roc_emit; rewrite roc_emit_fold_get; reflexivity. Qed.

(** On success, the result is the input with ["roc"] set to the emitted
    dictionary, for the data collected by the first loop. *)
Lemma parse_roc_inr (fh : result table) (traces out : dict pyval)
  (samples : list string) :
  parse_roc fh traces samples = inr out ->
  exists chroms lines data,
    roc_chroms traces = inr chroms /\ fh = inr lines /\
    for_each (roc_row (dict_keys (dict_set "roc" (PDict []) traces)) samples)
             (DictReader lines) [] = inr data /\
    out = dict_set "roc" (PDict (roc_emit data samples chroms))
                   (dict_set "roc" (PDict []) traces).
Proof.
  unfold parse_roc; intros H.
  apply bind_inr in H as (chroms & Hc & H).
  apply bind_inr in H as (lines & Hl & H).
  apply bind_inr in H as (data & Hd & H).
  injection H as <-; exists chroms, lines, data; auto.
Qed.

Lemma roc_traces_parse_roc (fh : result table) (traces out : dict pyval)
  (samples chroms : list string) :
  roc_chroms traces = inr chroms ->
  parse_roc fh traces samples = inr out ->
  exists data, forall chr,
    roc_traces chr out =
    if str_in chr chroms then Some (map (roc_trace data chr) samples) else None.
Proof.
  intros Hch H; apply parse_roc_inr in H as (chroms' & lines & data & Hc & _ & _ & ->).
  rewrite Hch in Hc; injection Hc as <-.
  exists data; intros chr; unfold roc_traces.
  rewrite dict_get_set_same, roc_emit_get.
  destruct (str_in chr chroms); reflexivity.
Qed.

(** A file with [#chrom] as first column, a [cov] column and a column per
    sample is read without failure. *)
Lemma roc_row_total (keys samples cols line : list string) (data : rocdata) :
  ~ In "#chrom" cols -> In "cov" cols -> incl samples ("#chrom" :: cols) ->
  line <> [] ->
  exists data',
    roc_row keys samples (DictReader_row ("#chrom" :: cols) line) data =
    inr data'.
Proof.
  intros Hc Hcov Hs Hline; destruct line as [| c rest]; [congruence |].
  unfold roc_row, dict_item at 1.
  pose proof (line_chrom_first cols c rest Hc) as E; unfold line_chrom in E.
  rewrite E; simpl.
  destruct (String.eqb c "#chrom"); [eexists; reflexivity |].
  destruct (negb _); [eexists; reflexivity |].
  destruct (DictReader_row_item ("#chrom" :: cols) (c :: rest) "cov") as [cov ->];
    [now right |]; simpl.
  apply for_each_total; intros s Hin d.
  destruct (DictReader_row_item ("#chrom" :: cols) (c :: rest) s) as [v ->];
    [now apply Hs |]; simpl.
  eexists; reflexivity.
Qed.

Lemma parse_roc_total (cols : list string) (lines : table)
  (traces : dict pyval) (samples : list string) :
  In "chromosomes" (dict_keys traces) ->
  ~ In "#chrom" cols -> In "cov" cols -> incl samples ("#chrom" :: cols) ->
  exists out, parse_roc (inr (("#chrom" :: cols) :: lines)) traces samples = inr out.
Proof.
  intros Hk Hc Hcov Hs; unfold parse_roc, roc_chroms.
  destruct (list_index "chromosomes" (dict_keys traces)) as [i |] eqn:E.
  - simpl.
    edestruct (for_each_total
                 (roc_row (dict_keys (dict_set "roc" (PDict []) traces)) samples)
                 (map (DictReader_row ("#chrom" :: cols))
                      (filter (fun l => negb (is_blank l)) lines)) [])
      as [data ->]; [| simpl; eexists; reflexivity].
    intros r Hr d; apply in_map_iff in Hr as (line & <- & Hin).
    apply filter_In in Hin as [_ Hnb].
    apply roc_row_total; try assumption.
    destruct line; [discriminate | congruence].
  - apply list_index_In in Hk; congruence.
Qed.

(** C6: for every established chromosome, [parse_roc] stores one list of
    line traces whose [text] labels are the samples, in order: one trace
    per sample and nothing else; it stores no list for any other
    chromosome.  This holds for every result [parse_roc] returns, and it
    does return one for a file that has [#chrom] as first column, a [cov]
    column and a column for every sample. *)
Theorem parse_roc_one_trace_per_sample (fh : result table)
  (traces : dict pyval) (samples chroms : list string) :
  roc_chroms traces = inr chroms ->
  (forall out, parse_roc fh traces samples = inr out ->
     forall chr,
       (In chr chroms ->
        exists l, roc_traces chr out = Some l /\
                  List.length l = List.length samples /\
                  map (trace_field "text") l =
                  map (fun s => Some (PStr s)) samples /\
                  Forall is_line_trace l) /\
       (~ In chr chroms -> roc_traces chr out = None)) /\
  (forall cols lines,
     fh = inr (("#chrom" :: cols) :: lines) ->
     ~ In "#chrom" cols -> In "cov" cols -> incl samples ("#chrom" :: cols) ->
     exists out, parse_roc fh traces samples = inr out).
Proof.
  intros Hch; split.
  - intros out Hout chr.
    destruct (roc_traces_parse_roc _ _ _ _ _ Hch Hout) as [data Hdata].
    rewrite Hdata; split.
    + intros Hin; apply str_in_In in Hin; rewrite Hin.
      eexists; split; [reflexivity |].
      rewrite length_map, map_map; simpl; repeat split.
      apply Forall_forall; intros t Ht.
      apply in_map_iff in Ht as (s & <- & _); reflexivity.
    + intros Hnin; apply str_in_false in Hnin; now rewrite Hnin.
  - intros cols lines -> Hc Hcov Hs.
    apply parse_roc_total; try assumption.
    unfold roc_chroms in Hch.
    apply list_index_In.
    destruct (list_index "chromosomes" (dict_keys traces)); [| discriminate].
    discriminate.
Qed.

Lemma parse_roc_one_trace_per_sample_witness :
  roc_chroms demo_traces = inr ["1"; "X"] /\
  exists out,
    parse_roc (inr demo_roc) demo_traces demo_samples = inr out /\
    exists l, roc_traces "X" out = Some l /\
              List.length l = 2 /\
              map (trace_field "text") l = [Some (PStr "s1"); Some (PStr "s2")].
Proof.
  split; [reflexivity |].
  destruct (parse_roc_one_trace_per_sample
              (inr demo_roc) demo_traces demo_samples ["1"; "X"] eq_refl)
    as [Hshape Htotal].
  destruct (Htotal ["cov"; "s1"; "s2"] (tl demo_roc) eq_refl) as [out Hout].
  - simpl; intuition discriminate.
  - simpl; auto.
  - unfold demo_samples; intros s [<- | [<- | []]]; simpl; auto.
  - exists out; split; [exact Hout |].
    destruct (Hshape out Hout "X") as [Hin _].
    destruct Hin as (l & Hl & Hlen & Htext & _); [simpl; auto |].
    exists l; auto.
Defined.

(** ** [parse_roc]: the frame *)

Lemma dict_set_set {V} (k : string) (v v' : V) (d : dict V) :
  dict_set k v (dict_set k v' d) = dict_set k v d.
Proof.
  induction d as [| [k0 v0] d IH]; simpl.
  - now rewrite String.eqb_refl.
  - destruct (String.eqb k k0) eqn:E; simpl.
    + now rewrite String.eqb_refl.
    + now rewrite E, IH.
Qed.

Lemma dict_set_fresh {V} (k : string) (v : V) (d : dict V) :
  dict_get k d = None -> dict_set k v d = d ++ [(k, v)].
Proof.
  induction d as [| [k0 v0] d IH]; simpl; [reflexivity |].
  destruct (String.eqb k k0); [discriminate |].
  intros H; now rewrite IH.
Qed.

(** C7, as the code has it: [parse_roc] sets the key ["roc"] and no other.
    For every input trace dictionary and every result returned, each key
    other than ["roc"] maps to the value it had before the call, the key
    ["roc"] maps to the dictionary of roc traces, and when the input has
    no key ["roc"] the result is the input with that one key added at its
    end. *)
Theorem parse_roc_sets_only_roc (fh : result table) (traces out : dict pyval)
  (samples : list string) :
  parse_roc fh traces samples = inr out ->
  (forall k, k <> "roc" -> dict_get k out = dict_get k traces) /\
  (exists roc, dict_get "roc" out = Some (PDict roc)) /\
  (dict_get "roc" traces = None ->
   exists roc, out = traces ++ [("roc", PDict roc)]).
Proof.
  intros H; apply parse_roc_inr in H as (chroms & lines & data & _ & _ & _ & ->).
  rewrite dict_set_set; split; [| split].
  - intros k Hk; now apply dict_get_set_other.
  - eexists; apply dict_get_set_same.
  - intros Hroc; eexists; now apply dict_set_fresh.
Qed.

Lemma parse_roc_sets_only_roc_witness :
  exists out,
    parse_roc (inr demo_roc) demo_traces demo_samples = inr out /\
    dict_get "chromosomes" out = dict_get "chromosomes" demo_traces /\
    exists roc, out = demo_traces ++ [("roc", PDict roc)].
Proof.
  eexists; split; [vm_compute; reflexivity |].
  match goal with
  | |- dict_get _ ?o = _ /\ _ =>
      destruct (parse_roc_sets_only_roc (inr demo_roc) demo_traces o
                  demo_samples) as (Hkeep & _ & Hadd)
  end.
  - vm_compute; reflexivity.
  - split; [apply Hkeep; discriminate | apply Hadd; reflexivity].
Defined.

(** C7, as stated, fails at a trace dictionary built for a contig called
    [roc]: the key ["roc"] is present before the call, and after the call
    it maps to another value; the traces that were stored under it are
    gone. *)
Lemma parse_roc_replaces_roc_key :
  exists out,
    parse_roc (inr demo_roc) roc_contig_traces demo_samples = inr out /\
    dict_keys out = dict_keys roc_contig_traces /\
    dict_get "roc" roc_contig_traces =
      Some (PList [PDict [("text", PStr "s1")]]) /\
    dict_get "roc" out <> dict_get "roc" roc_contig_traces.
Proof.
  eexists; split; [vm_compute; reflexivity |].
  split; [reflexivity |]; split; [reflexivity |].
  vm_compute; discriminate.
Qed.

(** ** [parse_roc]: the collected columns *)

Lemma data_get_append (chr' k' chr k : string) (v : pyval) (data : rocdata) :
  data_get chr' k' (data_append chr k v data) =
  if String.eqb chr' chr && String.eqb k' k
  then data_get chr k data ++ [v]
  else data_get chr' k' data.
Proof.
  unfold data_get, data_append.
  destruct (String.eqb chr' chr) eqn:Ec; simpl.
  - apply String.eqb_eq in Ec; subst chr'; rewrite dict_get_set_same.
    destruct (String.eqb k' k) eqn:Ek.
    + apply String.eqb_eq in Ek; subst k'; rewrite dict_get_set_same.
      destruct (dict_get chr data); reflexivity.
    + apply String.eqb_neq in Ek; rewrite dict_get_set_other by assumption.
      destruct (dict_get chr data); reflexivity.
  - apply String.eqb_neq in Ec; now rewrite dict_get_set_other.
Qed.

(** The inner [for sample in samples] loop, when no sample occurs twice. *)
Lemma roc_samples_loop (r : row) (chr : string) (samples : list string)
  (data data' : rocdata) :
  NoDup samples ->
  for_each (fun sample data =>
              v <- dict_item sample r ;;
              ret (data_append chr sample (cell_val v) data))
           samples data = inr data' ->
  forall chr' k,
    data_get chr' k data' =
    if String.eqb chr' chr && str_in k samples
    then data_get chr' k data ++ column k [r]
    else data_get chr' k data.
Proof.
  intros Hnd; revert data; induction Hnd as [| s samples Hs Hnd IH];
    intros data H chr' k.
  - injection H as <-; now rewrite andb_false_r.
  - cbn [for_each] in H; apply bind_inr in H as (d1 & H1 & H).
    apply bind_inr in H1 as (v & Hv & H1); injection H1 as <-.
    rewrite (IH _ H), data_get_append; fold (str_in k samples).
    cbn [str_in existsb]; fold (str_in k samples).
    destruct (String.eqb chr' chr) eqn:Ec; simpl; [| reflexivity].
    apply String.eqb_eq in Ec; subst chr'.
    destruct (String.eqb k s) eqn:Ek; simpl.
    + apply String.eqb_eq in Ek; subst k.
      apply str_in_false in Hs; rewrite Hs.
      unfold dict_item in Hv.
      destruct (dict_get s r); [| discriminate].
      now injection Hv as <-.
    + reflexivity.
Qed.

Lemma roc_row_data (keys samples : list string) (r : row)
  (data data' : rocdata) :
  NoDup samples -> ~ In "x" samples ->
  roc_row keys samples r data = inr data' ->
  forall chr, In chr keys ->
    data_get chr "x" data' =
      data_get chr "x" data ++ column "cov" (collected chr [r]) /\
    forall s, In s samples ->
      data_get chr s data' =
        data_get chr s data ++ column s (collected chr [r]).
Proof.
  intros Hnd Hx H chr Hchr; unfold roc_row in H.
  apply bind_inr in H as (c & Hc & H).
  unfold collected, matches_chrom; cbn [filter].
  unfold dict_item in Hc.
  destruct (dict_get "#chrom" r) as [c' |]; [| discriminate].
  injection Hc as ->; destruct c as [c |]; [| discriminate].
  destruct (String.eqb c "#chrom"); cbn [negb andb].
  { injection H as <-; split; intros; now rewrite app_nil_r. }
  destruct (str_in (strip "chr" c) keys) eqn:Hk; cbn [negb] in H.
  - apply bind_inr in H as (cov & Hcov & H).
    pose proof (roc_samples_loop _ _ _ _ _ Hnd H) as E.
    apply str_in_false in Hx.
    assert (Ecov : column "cov" [r] = [cell_val cov]).
    { unfold dict_item in Hcov; unfold column; simpl.
      destruct (dict_get "cov" r); [| discriminate]; now injection Hcov as ->. }
    split.
    + rewrite E, Hx, andb_false_r, data_get_append.
      rewrite (String.eqb_sym chr); simpl.
      destruct (String.eqb (strip "chr" c) chr) eqn:Ec.
      * apply String.eqb_eq in Ec; subst chr; now rewrite Ecov.
      * now rewrite app_nil_r.
    + intros s Hs; rewrite E, data_get_append.
      rewrite (String.eqb_sym chr).
      destruct (String.eqb (strip "chr" c) chr) eqn:Ec; cbn [andb].
      * apply String.eqb_eq in Ec; subst chr.
        apply str_in_In in Hs; rewrite Hs.
        destruct (String.eqb s "x") eqn:Esx; [| reflexivity].
        apply String.eqb_eq in Esx; subst s; congruence.
      * now rewrite app_nil_r.
  - injection H as <-.
    destruct (String.eqb (strip "chr" c) chr) eqn:Ec.
    + apply String.eqb_eq in Ec; subst chr.
      apply str_in_In in Hchr; congruence.
    + split; intros; now rewrite app_nil_r.
Qed.

Lemma collected_cons (chr : string) (r : row) (rows : list row) :
  collected chr (r :: rows) = collected chr [r] ++ collected chr rows.
Proof.
  unfold collected; simpl; destruct (matches_chrom chr r); reflexivity.
Qed.

Lemma roc_rows_data (keys samples : list string) (rows : list row)
  (data data' : rocdata) :
  NoDup samples -> ~ In "x" samples ->
  for_each (roc_row keys samples) rows data = inr data' ->
  forall chr, In chr keys ->
    data_get chr "x" data' =
      data_get chr "x" data ++ column "cov" (collected chr rows) /\
    forall s, In s samples ->
      data_get chr s data' =
        data_get chr s data ++ column s (collected chr rows).
Proof.
  intros Hnd Hx; revert data; induction rows as [| r rows IH];
    intros data H chr Hchr.
  - injection H as <-; split; intros; now rewrite app_nil_r.
  - cbn [for_each] in H; apply bind_inr in H as (d1 & H1 & H).
    destruct (roc_row_data _ _ _ _ _ Hnd Hx H1 chr Hchr) as [Ex1 Es1].
    destruct (IH _ H chr Hchr) as [Ex Es].
    rewrite collected_cons; unfold column in *; rewrite !map_app.
    split; [now rewrite Ex, Ex1, <- app_assoc |].
    intros s Hs; now rewrite (Es s Hs), (Es1 s Hs), <- app_assoc, map_app.
Qed.

Lemma roc_chroms_In (traces : dict pyval) (chroms : list string) (chr : string) :
  roc_chroms traces = inr chroms -> In chr chroms -> In chr (dict_keys traces).
Proof.
  unfold roc_chroms.
  destruct (list_index "chromosomes" (dict_keys traces)); [| discriminate].
  intros [= <-]; apply list_pop_In.
Qed.

(** With distinct samples, none of which is called [x], the trace of a
    sample on an established chromosome has for [x] the [cov] column of
    the rows collected for the chromosome and for [y] the sample's column
    without its first element. *)
Lemma parse_roc_trace_columns (lines : table) (traces out : dict pyval)
  (samples chroms : list string) :
  NoDup samples -> ~ In "x" samples ->
  roc_chroms traces = inr chroms ->
  parse_roc (inr lines) traces samples = inr out ->
  forall chr, In chr chroms ->
    let rows := collected chr (DictReader lines) in
    exists l,
      roc_traces chr out = Some l /\
      Forall2 (fun s t =>
                 trace_field "text" t = Some (PStr s) /\
                 trace_field "x" t = Some (PList (column "cov" rows)) /\
                 trace_field "y" t = Some (PList (tl (column s rows))))
              samples l.
Proof.
  intros Hnd Hx Hch H chr Hchr rows.
  apply parse_roc_inr in H as (chroms' & lines' & data & Hc & Hl & Hd & ->).
  rewrite Hch in Hc; injection Hc as <-; injection Hl as <-.
  assert (Hk : In chr (dict_keys (dict_set "roc" (PDict []) traces)))
    by (apply dict_keys_set; right; eapply roc_chroms_In; eassumption).
  destruct (roc_rows_data _ _ _ _ _ Hnd Hx Hd chr Hk) as [Ex Es].
  unfold roc_traces; rewrite dict_get_set_same, roc_emit_get.
  apply str_in_In in Hchr; rewrite Hchr.
  eexists; split; [reflexivity |].
  clear Hnd Hx Hd; induction samples as [| s samples IH]; simpl;
    constructor.
  - cbn; rewrite Ex, (Es s (or_introl eq_refl)); auto.
  - apply IH; intros s' Hs'; apply Es; now right.
Qed.

Lemma column_length (key : string) (rows : list row) :
  List.length (column key rows) = List.length rows.
Proof. unfold column; apply length_map. Qed.

(** Hence [x] is one element longer than [y] as soon as a row was
    collected for the chromosome. *)
Lemma parse_roc_x_one_longer (lines : table) (traces out : dict pyval)
  (samples chroms : list string) :
  NoDup samples -> ~ In "x" samples ->
  roc_chroms traces = inr chroms ->
  parse_roc (inr lines) traces samples = inr out ->
  forall chr l t,
    In chr chroms -> collected chr (DictReader lines) <> [] ->
    roc_traces chr out = Some l -> In t l ->
    exists n, plist_length (trace_field "y" t) = Some n /\
              plist_length (trace_field "x" t) = Some (S n).
Proof.
  intros Hnd Hx Hch H chr l t Hchr Hrows Hl Ht.
  destruct (parse_roc_trace_columns _ _ _ _ _ Hnd Hx Hch H chr Hchr)
    as (l' & Hl' & Hall).
  rewrite Hl in Hl'; injection Hl' as <-.
  destruct (Forall2_In_right _ _ _ _ Hall Ht) as (s & _ & _ & Hxs & Hys).
  rewrite Hxs, Hys; simpl.
  exists (List.length (tl (column s (collected chr (DictReader lines))))).
  split; [reflexivity |]; f_equal.
  pose proof (column_length s (collected chr (DictReader lines))) as Es.
  rewrite column_length.
  destruct (column s (collected chr (DictReader lines))) as [| v col];
    simpl in *; [| congruence].
  destruct (collected chr (DictReader lines)); [congruence | discriminate].
Qed.

(** C9, for a cohort with a sample called [x]: one row is collected for
    chromosome [1], yet the trace of sample [a] has two [x] values (the
    coverage and the value of sample [x]) and no [y] value, so [x] is two
    elements longer than [y], not one. *)
Theorem parse_roc_sample_named_x :
  exists out l t,
    parse_roc (inr x_roc) demo_traces x_samples = inr out /\
    roc_traces "1" out = Some l /\ In t l /\
    trace_field "text" t = Some (PStr "a") /\
    List.length (collected "1" (DictReader x_roc)) = 1 /\
    trace_field "x" t = Some (PList [PStr "0.00"; PStr "1.00"]) /\
    trace_field "y" t = Some (PList []).
Proof.
  eexists; eexists; eexists.
  split; [vm_compute; reflexivity |].
  split; [vm_compute; reflexivity |].
  split; [right; left; reflexivity |].
  repeat split.
Qed.

(** ** [parse_roc]: columns of the file that are not samples *)














(** ** [cli]: the order of its effects *)

(** Destructs the outcome of the next stage of [cli] in the goal. *)
Ltac next_stage :=
  match goal with
  | |- context [match ?c with inl _ => _ | inr _ => _ end] =>
      let e := fresh "e" in
      let x := fresh "x" in
      let H := fresh "Hstage" in
      destruct c as [e | x] eqn:H; cbn [fst snd files stderr]
  end.

Ltac unfold_cli :=
  unfold cli, io_bind, reading, logger_info, open_w, print_to, io_ret,
    bed_call in *;
  cbn [fst snd files stderr] in *.

(** The outcome of [cli] depends on the bed parser only through the call
    [bed_call]. *)
Lemma cli_bed_call (E E' : Env) (argv : list string) (w : world) :
  same_but_parse_bed E E' ->
  (forall a, parse_args (py_float E) argv = inr a ->
             bed_call E' a (files w) = bed_call E a (files w)) ->
  cli E' argv w = cli E argv w.
Proof.
  intros (Hf & Hgff & Hped & Hgz & Hw & Hr & Hc) Hbed.
  unfold_cli; rewrite Hf, Hgff, Hped, Hgz, Hw, Hr, Hc.
  destruct (parse_args (py_float E) argv) as [e | a]; [reflexivity |].
  rewrite (Hbed a eq_refl); reflexivity.
Qed.


(** Whatever makes the run fail, nothing is printed to a file: the files
    are untouched, or the output file has been opened and is empty. *)
Lemma cli_failure_files (E : Env) (argv : list string) (w w' : world) (e : exn) :
  cli E argv w = (inl e, w') ->
  files w' = files w \/
  exists a, parse_args (py_float E) argv = inr a /\
            files w' = dict_set (output a) EmptyString (files w).
Proof.
  unfold_cli.
  destruct (parse_args (py_float E) argv) as [e0 | a];
    [intros [= _ <-]; now left |].
  repeat (next_stage; [intros [= _ <-]; now left |]).
  destruct (truthy (ped a)); cbn [files stderr].
  - next_stage; [intros [= _ <-]; now left |].
    destruct (writable E (files w) (output a)); cbn [files stderr];
      [| intros [= _ <-]; now left].
    next_stage; [intros [= _ <-]; right; eauto | discriminate].
  - destruct (writable E (files w) (output a)); cbn [files stderr];
      [| intros [= _ <-]; now left].
    next_stage; [intros [= _ <-]; right; eauto | discriminate].
Qed.


(** ** [parse_args]: integer values *)

Lemma all_digits_string_of_uint (u : Decimal.uint) :
  all_digits (NilEmpty.string_of_uint u) = true.
Proof. induction u; simpl; auto. Qed.

Lemma num_text_string_of_Z (z : Z) : num_text (string_of_Z z) = true.
Proof.
  unfold string_of_Z; destruct z as [| p | p]; [reflexivity | |];
    cbn [Z.to_int NilZero.string_of_int NilZero.string_of_uint];
    pose proof (DecimalPos.Unsigned.to_uint_nonnil p) as Hnn;
    pose proof (all_digits_string_of_uint (Pos.to_uint p)) as Hd;
    destruct (Pos.to_uint p); try congruence;
    unfold num_text; simpl in Hd |- *; rewrite ?Hd; reflexivity.
Qed.

Lemma is_digit_dash (c : ascii) : is_digit c = true -> Ascii.eqb c "-" = false.
Proof.
  intros H; destruct (Ascii.eqb_spec c "-"); [subst; discriminate | reflexivity].
Qed.

Lemma num_text_not_dash_name (t : string) :
  num_text t = true -> dash_name t = false.
Proof.
  destruct t as [| c [| c' r]]; try reflexivity.
  unfold num_text, dash_name; cbn [all_digits].
  destruct (Ascii.eqb_spec c "-") as [-> | _]; [| reflexivity].
  simpl; destruct (is_digit c'); [reflexivity | discriminate].
Qed.

Lemma num_text_neq (t n : string) :
  num_text t = true -> dash_name n = true -> String.eqb t n = false.
Proof.
  intros Ht Hn; destruct (String.eqb_spec t n); [subst | reflexivity].
  rewrite (num_text_not_dash_name _ Ht) in Hn; discriminate.
Qed.

Lemma find_option_none (t : string) (opts : list optdecl) :
  num_text t = true ->
  forallb (fun od => forallb dash_name (fst od)) opts = true ->
  find_option t opts = None.
Proof.
  intros Ht; induction opts as [| [names store] opts IH]; simpl; [reflexivity |].
  intros H; apply andb_true_iff in H as [Hn Ho].
  replace (str_in t names) with false; [now apply IH |].
  symmetry; apply str_in_false; intros Hin.
  rewrite forallb_forall in Hn.
  pose proof (num_text_neq t t Ht (Hn t Hin)) as E.
  now rewrite String.eqb_refl in E.
Qed.

Lemma digit_not_candidate (c : ascii) (r o : string) :
  is_digit c = true -> dash_name o = true ->
  String.eqb o (String "-" (String c EmptyString))
  || startswith (String "-" (String c r)) o = false.
Proof.
  intros Hc Ho; destruct o as [| o0 [| o1 o']]; try discriminate.
  cbn [dash_name] in Ho; apply andb_true_iff in Ho as [_ Ho1].
  apply negb_true_iff in Ho1.
  assert (E : Ascii.eqb o1 c = false)
    by (destruct (Ascii.eqb_spec o1 c); [congruence | reflexivity]).
  cbn [String.eqb startswith]; rewrite (Ascii.eqb_sym c o1), E.
  destruct (Ascii.eqb o0 "-"), (Ascii.eqb "-" o0); reflexivity.
Qed.

Lemma num_text_no_candidate (t : string) :
  num_text t = true -> option_candidates t = false.
Proof.
  destruct t as [| c [| c' r]]; try reflexivity.
  unfold num_text, option_candidates; cbn [all_digits].
  destruct (Ascii.eqb_spec c "-") as [-> | Hc].
  - change (is_digit "-") with false; cbn [andb orb].
    intros H; apply andb_true_iff in H as [_ H].
    apply andb_true_iff in H as [Hd _].
    rewrite (is_digit_dash _ Hd).
    assert (G : forall names : list string,
               forallb dash_name names = true ->
               existsb (fun o =>
                          String.eqb o (String "-" (String c' EmptyString))
                          || startswith (String "-" (String c' r)) o)
                       names = false).
    { induction names as [| o names IH]; [reflexivity |].
      cbn [forallb existsb]; intros H; apply andb_true_iff in H as [Ho Hn].
      now rewrite (digit_not_candidate c' r o Hd Ho), IH. }
    apply G; reflexivity.
  - rewrite orb_false_r; intros H; apply andb_true_iff in H as [_ H].
    apply andb_true_iff in H as [Hd _].
    rewrite (is_digit_dash _ Hd).
    assert (G : forall names : list string,
               forallb dash_name names = true ->
               existsb (fun o =>
                          String.eqb o (String c (String c' EmptyString))
                          || startswith (String c (String c' r)) o)
                       names = false).
    { induction names as [| o names IH]; [reflexivity |].
      cbn [forallb existsb]; intros H; apply andb_true_iff in H as [Ho Hn].
      rewrite (IH Hn), orb_false_r.
      destruct o as [| o0 [| o1 o']]; try discriminate.
      cbn [dash_name] in Ho; apply andb_true_iff in Ho as [Ho0 _].
      apply Ascii.eqb_eq in Ho0; subst o0.
      assert (E : Ascii.eqb c "-" = false)
        by (destruct (Ascii.eqb_spec c "-"); [congruence | reflexivity]).
      cbn [String.eqb startswith]; rewrite E, (Ascii.eqb_sym "-" c), E.
      reflexivity. }
    apply G; reflexivity.
Qed.

Lemma num_text_not_option (t : string) :
  num_text t = true -> looks_like_option t = false.
Proof.
  intros Ht; pose proof (num_text_no_candidate t Ht) as Hc.
  destruct t as [| c [| c' r]]; try reflexivity.
  unfold looks_like_option; rewrite Hc; cbn [orb].
  unfold num_text in Ht; unfold looks_negative_number.
  destruct (Ascii.eqb_spec c "-") as [-> | _]; [| reflexivity].
  revert Ht; change (is_digit "-") with false; cbn [andb orb].
  intros ->; reflexivity.
Qed.

Lemma py_int_string_of_Z (z : Z) : py_int (string_of_Z z) = Some z.
Proof.
  pose proof (num_text_string_of_Z z) as Ht.
  assert (E : NilZero.int_of_string (string_of_Z z) = Some (Z.to_int z)).
  { unfold string_of_Z; apply NilZero.isi; destruct z; simpl; try discriminate;
      intros [= H]; exact (DecimalPos.Unsigned.to_uint_nonnil _ H). }
  unfold py_int; destruct (string_of_Z z) as [| c r]; [discriminate |].
  replace (Ascii.eqb c "+") with false.
  - rewrite E; simpl; now rewrite DecimalZ.of_to.
  - symmetry; destruct (Ascii.eqb_spec c "+") as [-> | _]; [| reflexivity].
    discriminate.
Qed.

(** An integer text after an option is taken as its value. *)
Lemma num_text_is_value (pf : string -> option pyfloat) (t : string) :
  num_text t = true ->
  looks_like_option t || str_in t ["-h"; "--help"]
  || match find_option t (options pf) with
     | Some _ => true
     | None => false
     end = false.
Proof.
  intros Ht; rewrite (num_text_not_option _ Ht).
  rewrite (find_option_none t (options pf) Ht) by reflexivity.
  replace (str_in t ["-h"; "--help"]) with false; [reflexivity |].
  symmetry; apply str_in_false; intros [<- | [<- | []]]; discriminate.
Qed.

Lemma parse_tokens_option (opts : list optdecl) (t v : string)
  (rest : list string) (a a' : Args) (pos : list string)
  (store : string -> Args -> option Args) :
  str_in t ["-h"; "--help"] = false ->
  find_option t opts = Some store ->
  looks_like_option v || str_in v ["-h"; "--help"]
  || match find_option v opts with
     | Some _ => true
     | None => false
     end = false ->
  store v a = Some a' ->
  parse_tokens opts (t :: v :: rest) a pos = parse_tokens opts rest a' pos.
Proof.
  intros Hh Hf Hv Hs; cbn [parse_tokens]; rewrite Hh, Hf, Hv, Hs; reflexivity.
Qed.

Lemma parse_tokens_positional (opts : list optdecl) (t : string)
  (rest : list string) (a : Args) (pos : list string) :
  str_in t ["-h"; "--help"] = false ->
  find_option t opts = None ->
  looks_like_option t = false ->
  parse_tokens opts (t :: rest) a pos = parse_tokens opts rest a (pos ++ [t]).
Proof.
  intros Hh Hf Hl; cbn [parse_tokens]; rewrite Hh, Hf, Hl; reflexivity.
Qed.

Lemma parse_args_thresholds (pf : string -> option pyfloat) (d s : Z) :
  parse_args pf (threshold_argv d s) = inr (threshold_args d s).
Proof.
  unfold parse_args, threshold_argv.
  rewrite parse_tokens_positional by reflexivity.
  rewrite parse_tokens_positional by reflexivity.
  rewrite (parse_tokens_option _ "-d" _ _ _
             (set_distance_threshold d default_args) _
             (store_int set_distance_threshold));
    [| reflexivity | reflexivity
     | exact (num_text_is_value pf _ (num_text_string_of_Z d))
     | unfold store_int; now rewrite py_int_string_of_Z ].
  rewrite (parse_tokens_option _ "-s" _ _ _
             (set_slop s (set_distance_threshold d default_args)) _
             (store_int set_slop));
    [| reflexivity | reflexivity
     | exact (num_text_is_value pf _ (num_text_string_of_Z s))
     | unfold store_int; now rewrite py_int_string_of_Z ].
  reflexivity.
Qed.

(** ** [cli]: what a run does *)

(** What [cli] does once the four stages have returned [traces]. *)
Lemma cli_parsed (E : Env) (argv : list string) (a : Args) (w : world)
  (traces : dict pyval) :
  parse_args (py_float E) argv = inr a ->
  parsed E a (files w) = inr traces ->
  cli E argv w =
  if writable E (files w) (output a)
  then
    match render E (compress_data (compressToBase64 E) (PDict traces)) with
    | inl e =>
        (inl e, mkWorld (dict_set (output a) EmptyString (files w))
                        (stderr w ++ stage_log a))
    | inr html =>
        (inr tt,
         mkWorld (dict_set (output a) (html ++ String "010" EmptyString)%string
                           (files w))
                 (stderr w ++ stage_log a ++ ["[INFO] processing complete"]))
    end
  else (inl (OSError (output a)), mkWorld (files w) (stderr w ++ stage_log a)).
Proof.
  intros Ha Hp; unfold parsed in Hp.
  apply bind_inr in Hp as (ts & Hb & Hp).
  apply bind_inr in Hp as (t1 & Hg & Hp).
  apply bind_inr in Hp as (t2 & Hr & Hp).
  unfold_cli; rewrite Ha, Hb; cbn [fst snd].
  rewrite Hg, Hr; unfold stage_log.
  destruct (truthy (ped a)); cbn [files stderr].
  - rewrite Hp; cbn [files stderr].
    destruct (writable E (files w) (output a)); cbn [files stderr].
    + destruct (render E _); cbn [files stderr].
      * now rewrite <- !app_assoc.
      * rewrite dict_get_set_same, dict_set_set; cbn [append].
        now rewrite <- !app_assoc.
    + now rewrite <- !app_assoc.
  - injection Hp as <-.
    destruct (writable E (files w) (output a)); cbn [files stderr].
    + destruct (render E _); cbn [files stderr].
      * now rewrite <- !app_assoc.
      * rewrite dict_get_set_same, dict_set_set; cbn [append].
        now rewrite <- !app_assoc.
    + now rewrite <- !app_assoc.
Qed.







(** C8, as the code has it: a distance threshold or a slop that is zero
    or negative is not rejected.  [parse_args] accepts every integer for
    [-d] and [-s] and returns it as given; [cli] then starts processing
    and hands both to the bed parser: a failure of that call is the
    failure of the run, and the run depends on the bed parser through that
    call only. *)
Theorem cli_takes_any_threshold (E : Env) (d s : Z) (w : world) :
  parse_args (py_float E) (threshold_argv d s) = inr (threshold_args d s) /\
  distance_threshold (threshold_args d s) = d /\
  slop (threshold_args d s) = s /\
  (forall e, bed_call E (threshold_args d s) (files w) = inl e ->
     cli E (threshold_argv d s) w =
     (inl e, mkWorld (files w)
                     (stderr w ++ ["[INFO] parsing bed file (cov.bed)"]))) /\
  (forall E', same_but_parse_bed E E' ->
     bed_call E' (threshold_args d s) (files w) =
     bed_call E (threshold_args d s) (files w) ->
     cli E' (threshold_argv d s) w = cli E (threshold_argv d s) w).
Proof.
  pose proof (parse_args_thresholds (py_float E) d s) as Hp.
  split; [exact Hp |]; split; [reflexivity |]; split; [reflexivity |]; split.
  - intros e Hb; unfold_cli; rewrite Hp, Hb; reflexivity.
  - intros E' Hsame Hb; apply cli_bed_call; [assumption |].
    intros a Ha; rewrite Hp in Ha; injection Ha as <-; exact Hb.
Qed.

(** C8, as stated, fails for [-d -5 -s 0]: the arguments are accepted with
    these two values, nothing fails at startup, and in an environment
    whose parsers accept their files the run completes and writes the
    report. *)
Lemma cli_nonpositive_thresholds_run :
  exists a w',
    parse_args (py_float demo_env)
               ["cov.bed"; "cov.roc"; "-d"; "-5"; "-s"; "0"] = inr a /\
    (distance_threshold a <= 0)%Z /\ (slop a <= 0)%Z /\
    cli demo_env ["cov.bed"; "cov.roc"; "-d"; "-5"; "-s"; "0"] demo_world =
      (inr tt, w') /\
    dict_get "covviz_report.html" (files demo_world) = None /\
    dict_get "covviz_report.html" (files w') <> None.
Proof.
  eexists; eexists.
  split; [vm_compute; reflexivity |].
  split; [vm_compute; discriminate |].
  split; [vm_compute; discriminate |].
  split; [vm_compute; reflexivity |].
  split; [reflexivity | vm_compute; discriminate].
Qed.

(** ** [compress_data] *)

(** C1, for a cohort with a sample called [NaN-7]: there is no
    not-a-number value in the traces, so the normalised collection is the
    collection itself, yet what decompressing gives back is not its
    serialisation: it is the serialisation of a collection in which the
    sample is called [null-7]. *)
Theorem compress_data_rewrites_NaN_text (compress decompress : string -> string) :
  (forall s, decompress (compress s) = s) ->
  nan_to_null nan_named_traces = nan_named_traces /\
  decompress (compress_data compress nan_named_traces) =
    dumps null_named_traces /\
  decompress (compress_data compress nan_named_traces) <>
    dumps (nan_to_null nan_named_traces).
Proof.
  intros Hcodec; unfold compress_data; rewrite Hcodec.
  split; [reflexivity |]; split; [vm_compute; reflexivity |].
  vm_compute; discriminate.
Qed.

Lemma compress_data_rewrites_NaN_text_witness :
  (fun s : string => s) (compress_data (fun s => s) nan_named_traces) <>
  dumps (nan_to_null nan_named_traces).
Proof.
  apply (compress_data_rewrites_NaN_text (fun s => s) (fun s => s)).
  reflexivity.
Defined.

(** ** [compress_data] on collections whose strings are free of [NaN] *)

Lemma str_app_assoc (a b c : string) : ((a ++ b) ++ c = a ++ (b ++ c))%string.
Proof. induction a as [| x a IH]; simpl; [reflexivity | now rewrite IH]. Qed.

Lemma str_app_nil_r (a : string) : (a ++ "" = a)%string.
Proof. induction a as [| x a IH]; simpl; [reflexivity | now rewrite IH]. Qed.

Lemma scan_char (c : ascii) (s : string) :
  Ascii.eqb c "N" = false -> scan (String c s) = String c (scan s).
Proof.
  intros Hc; cbn [replace_scan startswith].
  rewrite Ascii.eqb_sym, Hc; reflexivity.
Qed.

Lemma scan_no_N (u rest : string) :
  no_N u = true -> scan (u ++ rest) = (u ++ scan rest)%string.
Proof.
  induction u as [| c u IH]; simpl no_N; intros H; [reflexivity |].
  apply andb_true_iff in H as [Hc Hu]; apply negb_true_iff in Hc.
  cbn [append]; rewrite scan_char by assumption; now rewrite IH.
Qed.

Lemma scan_NaN (rest : string) : scan ("NaN" ++ rest) = ("null" ++ scan rest)%string.
Proof. reflexivity. Qed.

Lemma startswith_app (p u rest : string) :
  startswith p u = true -> startswith p (u ++ rest) = true.
Proof.
  revert u; induction p as [| a p IH]; intros [| b u]; simpl; try easy.
  intros H; apply andb_true_iff in H as [-> H]; simpl; now apply IH.
Qed.

(** A text without [NaN], followed by a text that cannot complete one,
    passes the scan unchanged. *)
Lemma scan_free (u rest : string) :
  has_NaN u = false -> ok_start rest = true ->
  scan (u ++ rest) = (u ++ scan rest)%string.
Proof.
  intros Hu Hrest; induction u as [| c u IH]; [reflexivity |].
  cbn [has_NaN] in Hu; apply orb_false_iff in Hu as [Hhere Hu].
  specialize (IH Hu).
  destruct (Ascii.eqb c "N") eqn:Hc;
    [| cbn [append]; rewrite scan_char by assumption; now rewrite IH].
  apply Ascii.eqb_eq in Hc; subst c.
  assert (Hno : startswith "NaN" ("N" ++ u ++ rest) = false).
  { destruct u as [| c2 [| c3 u]].
    - destruct rest as [| r0 rest]; [reflexivity |].
      cbn [ok_start] in Hrest; apply andb_true_iff in Hrest as [_ Ha].
      apply negb_true_iff in Ha; rewrite Ascii.eqb_sym in Ha.
      cbn [append startswith]; rewrite Ha; reflexivity.
    - destruct rest as [| r0 rest].
      + cbn [append startswith]; now rewrite !andb_false_r.
      + cbn [ok_start] in Hrest; apply andb_true_iff in Hrest as [HN _].
        apply negb_true_iff in HN; rewrite Ascii.eqb_sym in HN.
        cbn [append startswith]; rewrite HN.
        now rewrite !andb_false_r.
    - exact Hhere. }
  change (String "N" u ++ rest)%string with ("N" ++ u ++ rest)%string.
  cbn [append replace_scan]; cbn [append] in Hno; rewrite Hno.
  now rewrite IH.
Qed.

(** *** The encoder of strings *)

Lemma escape_char_ok_all (c : ascii) : escape_char_ok c = true.
Proof.
  destruct c as [[] [] [] [] [] [] [] []]; vm_compute; reflexivity.
Qed.

Lemma escape_char_cases (c : ascii) :
  escape_char c = String c EmptyString \/
  (exists t, escape_char c = String backslash t) /\
  no_N (escape_char c) = true /\ escape_char c <> String c EmptyString.
Proof.
  pose proof (escape_char_ok_all c) as H; unfold escape_char_ok in H.
  apply orb_true_iff in H as [H | H].
  - left; now apply String.eqb_eq.
  - right; apply andb_true_iff in H as [H Hne].
    apply andb_true_iff in H as [Hb HN].
    split; [| split; [exact HN |]].
    + destruct (escape_char c) as [| c0 t]; [discriminate |].
      cbn [startswith] in Hb; rewrite andb_true_r in Hb.
      apply Ascii.eqb_eq in Hb; subst; eauto.
    + apply negb_true_iff, String.eqb_neq in Hne; exact Hne.
Qed.

(** A pattern of plain characters starts the encoded text exactly when it
    starts the text. *)
Lemma startswith_escape (p s : string) :
  plain p = true -> startswith p (escape s) = startswith p s.
Proof.
  revert s; induction p as [| a p IH]; intros s Hp;
    [now destruct (escape s), s |].
  cbn [plain] in Hp; apply andb_true_iff in Hp as [Hp Hp'].
  apply andb_true_iff in Hp as [Ha Hbs].
  apply String.eqb_eq in Ha; apply negb_true_iff in Hbs.
  destruct s as [| c s]; [reflexivity |].
  cbn [escape]; destruct (escape_char_cases c) as [-> | ([t E] & _ & Hne)].
  - cbn [append startswith]; now rewrite IH.
  - rewrite E; cbn [append startswith]; rewrite Hbs; cbn [andb].
    destruct (Ascii.eqb_spec a c) as [-> | _]; [congruence | reflexivity].
Qed.

Lemma has_NaN_no_N (u w : string) :
  no_N u = true -> has_NaN (u ++ w) = has_NaN w.
Proof.
  induction u as [| c u IH]; simpl no_N; intros H; [reflexivity |].
  apply andb_true_iff in H as [Hc Hu]; apply negb_true_iff in Hc.
  cbn [append has_NaN startswith]; rewrite Ascii.eqb_sym, Hc; cbn [andb orb].
  now apply IH.
Qed.

Lemma has_NaN_cons (c : ascii) (s : string) :
  has_NaN (String c s) =
  Ascii.eqb "N" c && startswith "aN" s || has_NaN s.
Proof. reflexivity. Qed.

Lemma has_NaN_escape (s : string) : has_NaN (escape s) = has_NaN s.
Proof.
  induction s as [| c s IH]; [reflexivity |].
  cbn [escape]; destruct (escape_char_cases c) as [E | ([t E] & HN & Hne)].
  - rewrite E; cbn [append]; rewrite !has_NaN_cons.
    rewrite (startswith_escape "aN" s eq_refl), IH; reflexivity.
  - rewrite has_NaN_no_N by exact HN; rewrite IH.
    cbn [has_NaN startswith].
    destruct (Ascii.eqb_spec "N" c) as [<- | _]; [| reflexivity].
    exfalso; apply Hne; reflexivity.
Qed.

Lemma scan_encode (s rest : string) :
  has_NaN s = false -> ok_start rest = true ->
  scan (encode_basestring_ascii s ++ rest) =
  (encode_basestring_ascii s ++ scan rest)%string.
Proof.
  intros Hs Hrest; unfold encode_basestring_ascii.
  cbn [append]; rewrite scan_char by reflexivity.
  rewrite !str_app_assoc; cbn [append].
  rewrite scan_free; [| now rewrite has_NaN_escape | reflexivity].
  now rewrite scan_char by reflexivity.
Qed.

(** *** The scan of a serialised value *)

Lemma scan_concat (items items' : list string) (rest : string) :
  Forall2 scans_to items items' -> ok_start rest = true ->
  scan (String.concat ", " items ++ rest) =
  (String.concat ", " items' ++ scan rest)%string.
Proof.
  intros H Hrest; induction H as [| x x' items items' Hx H IH]; [reflexivity |].
  destruct H as [| y y' items items' Hy H].
  - cbn [String.concat]; now apply Hx.
  - change (String.concat ", " (x :: y :: items))
      with (x ++ ", " ++ String.concat ", " (y :: items))%string.
    change (String.concat ", " (x' :: y' :: items'))
      with (x' ++ ", " ++ String.concat ", " (y' :: items'))%string.
    rewrite !str_app_assoc, Hx by reflexivity.
    rewrite (scan_no_N ", ") by reflexivity.
    now rewrite IH.
Qed.

Lemma no_N_digits (s : string) : all_digits s = true -> no_N s = true.
Proof.
  induction s as [| c s IH]; [reflexivity |]; cbn [all_digits no_N].
  intros H; apply andb_true_iff in H as [Hc Hs]; rewrite (IH Hs), andb_true_r.
  apply negb_true_iff; destruct (Ascii.eqb_spec c "N") as [-> | _];
    [discriminate | reflexivity].
Qed.

Lemma no_N_string_of_Z (z : Z) : no_N (string_of_Z z) = true.
Proof.
  pose proof (num_text_string_of_Z z) as H.
  destruct (string_of_Z z) as [| c r]; [reflexivity |].
  unfold num_text in H; apply orb_true_iff in H as [H | H].
  - now apply no_N_digits.
  - apply andb_true_iff in H as [H Hr]; apply andb_true_iff in H as [Hc _].
    apply Ascii.eqb_eq in Hc; subst c.
    cbn [no_N]; now rewrite (no_N_digits _ Hr).
Qed.

Lemma no_N_floatstr (repr : list fchar) :
  no_N (string_of_list_ascii (map fchar_ascii repr)) = true.
Proof.
  induction repr as [| c repr IH]; [reflexivity |].
  cbn [map string_of_list_ascii no_N]; rewrite IH.
  destruct c; reflexivity.
Qed.

Lemma scans_to_dumps (v : pyval) :
  nan_free v = true -> scans_to (dumps v) (dumps (nan_to_null v)).
Proof.
  induction v as [| b | z | f | s | l IH | d IH] using pyval_induction;
    intros Hfree rest Hrest.
  - reflexivity.
  - destruct b; reflexivity.
  - cbn [dumps nan_to_null]; apply scan_no_N, no_N_string_of_Z.
  - destruct f as [| | | repr]; try reflexivity.
    cbn [dumps nan_to_null floatstr]; apply scan_no_N, no_N_floatstr.
  - cbn [dumps nan_to_null]; cbn [nan_free] in Hfree.
    apply scan_encode; [now apply negb_true_iff | assumption].
  - cbn [dumps nan_to_null]; cbn [nan_free] in Hfree.
    rewrite !str_app_assoc; cbn [append].
    rewrite scan_char by reflexivity; f_equal.
    rewrite (scan_concat _ (map dumps (map nan_to_null l))) by
      (try reflexivity;
       clear - IH Hfree; induction IH as [| x l Hx _ IHl]; cbn [map];
       constructor;
       cbn [forallb] in Hfree; apply andb_true_iff in Hfree as [Hx' Hl'];
       auto).
    now rewrite scan_char by reflexivity.
  - cbn [dumps nan_to_null]; cbn [nan_free] in Hfree.
    rewrite !str_app_assoc; cbn [append].
    rewrite scan_char by reflexivity; f_equal.
    rewrite (scan_concat _
               (map (fun kv => encode_basestring_ascii (fst kv) ++ ": "
                               ++ dumps (snd kv))%string
                    (map (fun kv => (fst kv, nan_to_null (snd kv))) d))).
    + now rewrite scan_char by reflexivity.
    + clear - IH Hfree; induction IH as [| [k x] d Hx _ IHd]; cbn [map];
        constructor;
        cbn [forallb] in Hfree; apply andb_true_iff in Hfree as [Hx' Hd'];
        auto.
      apply andb_true_iff in Hx' as [Hk Hx']; cbn [fst snd] in *.
      intros rest Hrest; rewrite !str_app_assoc.
      rewrite scan_encode; [| now apply negb_true_iff | reflexivity].
      cbn [append]; rewrite !scan_char by reflexivity.
      now rewrite (Hx Hx' rest Hrest).
    + reflexivity.
Qed.

(** When no string and no key contains the text [NaN], the payload is the
    serialisation of the collection with every not-a-number float turned
    into [None], and nothing else changed. *)
Lemma json_payload_nan_free (v : pyval) :
  nan_free v = true -> json_payload v = dumps (nan_to_null v).
Proof.
  intros H; unfold json_payload, utf8_ignore_roundtrip, replace.
  rewrite <- (str_app_nil_r (dumps v)).
  rewrite (scans_to_dumps v H "" eq_refl); apply str_app_nil_r.
Qed.

(** X8: for a collection none of whose strings and keys contains the text
    [NaN], and any reversible codec, decompressing what [compress_data]
    returns gives the serialisation of the collection in which every
    not-a-number float is [None] and nothing else is changed. *)
Lemma compress_data_roundtrip (compress decompress : string -> string)
  (v : pyval) :
  (forall s, decompress (compress s) = s) ->
  nan_free v = true ->
  decompress (compress_data compress v) = dumps (nan_to_null v).
Proof.
  intros Hcodec Hfree; unfold compress_data.
  now rewrite Hcodec, json_payload_nan_free.
Qed.

(** * Further properties of [parse_roc] *)

(** ** Its failures *)

(** X1: without a ["chromosomes"] key in the trace dictionary [parse_roc]
    fails with [ValueError], whatever the file is, even one that cannot be
    opened: the key is looked up before the file is. *)
Theorem parse_roc_needs_chromosomes (fh : result table) (traces : dict pyval)
  (samples : list string) :
  ~ In "chromosomes" (dict_keys traces) ->
  parse_roc fh traces samples = inl (ValueError "'chromosomes' is not in list").
Proof.
  intros H; unfold parse_roc, roc_chroms.
  destruct (list_index "chromosomes" (dict_keys traces)) eqn:E; [| reflexivity].
  exfalso; apply H, list_index_In; congruence.
Qed.

Lemma parse_roc_needs_chromosomes_witness :
  parse_roc (inl (OSError "cov.roc")) [("1", PList [])] demo_samples =
  inl (ValueError "'chromosomes' is not in list").
Proof.
  apply (parse_roc_needs_chromosomes (inl (OSError "cov.roc"))
           [("1", PList [])] demo_samples).
  simpl; intuition discriminate.
Defined.

Lemma for_each_raises {A S} (body : A -> S -> result S) (pre post : list A)
  (a : A) (s : S) (e : exn) :
  (forall x s, In x pre -> exists s', body x s = inr s') ->
  (forall s, body a s = inl e) ->
  for_each body (pre ++ a :: post) s = inl e.
Proof.
  intros Hpre Ha; rewrite for_each_app.
  destruct (for_each_total body pre s) as [s' ->];
    [intros x Hx s0; now apply Hpre |].
  simpl; now rewrite Ha.
Qed.

Lemma DictReader_row_missing (fieldnames line : list string) (k : string) :
  ~ In k fieldnames ->
  dict_item k (DictReader_row fieldnames line) = inl (KeyError k).
Proof.
  intros Hk; unfold dict_item.
  destruct (dict_get k (DictReader_row fieldnames line)) eqn:E; [| reflexivity].
  exfalso; apply Hk, (DictReader_row_keys fieldnames line), dict_get_keys.
  congruence.
Qed.

(** Under a header that starts with [#chrom], a line that is not collected
    is passed over. *)
Lemma roc_row_not_collected (traces : dict pyval) (chroms samples cols : list string)
  (line : list string) (data : rocdata) :
  roc_chroms traces = inr chroms -> ~ In "#chrom" cols ->
  line <> [] -> line_collected chroms line = false ->
  roc_row (dict_keys (dict_set "roc" (PDict []) traces)) samples
          (DictReader_row ("#chrom" :: cols) line) data = ret data.
Proof.
  intros Hch Hc Hne Hnc; destruct line as [| c rest]; [congruence |].
  unfold roc_row, dict_item.
  pose proof (line_chrom_first cols c rest Hc) as E; unfold line_chrom in E.
  rewrite E; cbn [bind ret]; cbn [line_collected] in Hnc.
  destruct (String.eqb c "#chrom"); [reflexivity |].
  cbn [negb andb] in Hnc.
  destruct (str_in (strip "chr" c)
              (dict_keys (dict_set "roc" (PDict []) traces))) eqn:Hin;
    [| reflexivity].
  exfalso; apply str_in_In, dict_keys_set in Hin.
  apply str_in_false in Hnc.
  destruct Hin as [Hroc | Hin]; [exact (strip_chr_not_roc _ Hroc) |].
  destruct (roc_chroms_keys _ _ _ Hch Hin) as [Hx | Hx];
    [exact (strip_chr_not_chromosomes _ Hx) | exact (Hnc Hx)].
Qed.

Lemma roc_row_missing_sample (traces : dict pyval)
  (chroms cols pre post : list string) (s : string) (line : list string)
  (data : rocdata) :
  roc_chroms traces = inr chroms -> ~ In "#chrom" cols -> In "cov" cols ->
  incl pre ("#chrom" :: cols) -> ~ In s ("#chrom" :: cols) ->
  line_collected chroms line = true ->
  roc_row (dict_keys (dict_set "roc" (PDict []) traces)) (pre ++ s :: post)
          (DictReader_row ("#chrom" :: cols) line) data = inl (KeyError s).
Proof.
  intros Hch Hc Hcov Hpre Hs Hcol; destruct line as [| c rest]; [discriminate |].
  unfold roc_row, dict_item at 1.
  pose proof (line_chrom_first cols c rest Hc) as E; unfold line_chrom in E.
  rewrite E; cbn [bind ret]; cbn [line_collected] in Hcol.
  apply andb_true_iff in Hcol as [Hh Hin].
  apply negb_true_iff in Hh; rewrite Hh.
  replace (str_in (strip "chr" c)
             (dict_keys (dict_set "roc" (PDict []) traces))) with true.
  - cbn [negb].
    destruct (DictReader_row_item ("#chrom" :: cols) (c :: rest) "cov") as [cov ->];
      [now right |]; cbn [bind ret].
    apply for_each_raises.
    + intros x d Hx.
      destruct (DictReader_row_item ("#chrom" :: cols) (c :: rest) x) as [v ->];
        [now apply Hpre |]; simpl; eauto.
    + intros d; now rewrite DictReader_row_missing.
  - symmetry; apply str_in_In, dict_keys_set; right.
    apply str_in_In in Hin; eapply roc_chroms_In; eassumption.
Qed.

(** X2: an established sample that has no column in the file makes
    [parse_roc] fail with [KeyError] on that sample's name (the first such
    sample), as soon as the file holds a line of an established
    chromosome.  The header is taken to start with [#chrom] and to have a
    [cov] column. *)
Theorem parse_roc_missing_sample_column (cols : list string) (lines : table)
  (traces : dict pyval) (chroms pre post : list string) (s : string) :
  roc_chroms traces = inr chroms ->
  ~ In "#chrom" cols -> In "cov" cols ->
  incl pre ("#chrom" :: cols) -> ~ In s ("#chrom" :: cols) ->
  existsb (line_collected chroms) lines = true ->
  parse_roc (inr (("#chrom" :: cols) :: lines)) traces (pre ++ s :: post) =
  inl (KeyError s).
Proof.
  intros Hch Hc Hcov Hpre Hs Hex; unfold parse_roc; rewrite Hch.
  cbn [bind DictReader].
  set (body := roc_row _ _).
  assert (E : forall data,
             for_each body
               (map (DictReader_row ("#chrom" :: cols))
                    (filter (fun l => negb (is_blank l)) lines)) data =
             inl (KeyError s)).
  { induction lines as [| line lines IH]; [discriminate |]; intros data.
    cbn [existsb] in Hex; cbn [filter].
    destruct (line_collected chroms line) eqn:Hcol.
    - assert (Hnb : is_blank line = false) by (now destruct line).
      rewrite Hnb; cbn [negb map for_each]; unfold body at 1.
      rewrite (roc_row_missing_sample traces chroms cols pre post s line data);
        auto.
    - cbn [orb] in Hex; destruct (is_blank line) eqn:Hnb; cbn [negb];
        [now apply IH |].
      cbn [map for_each]; unfold body at 1.
      rewrite (roc_row_not_collected traces chroms (pre ++ s :: post) cols);
        auto; [now apply IH | now destruct line]. }
  rewrite E; reflexivity.
Qed.

Lemma parse_roc_missing_sample_column_witness :
  parse_roc (inr demo_roc) demo_traces ["s1"; "s9"; "s2"] = inl (KeyError "s9").
Proof.
  apply (parse_roc_missing_sample_column ["cov"; "s1"; "s2"] (tl demo_roc)
           demo_traces ["1"; "X"] ["s1"] ["s2"] "s9").
  - reflexivity.
  - simpl; intuition discriminate.
  - simpl; auto.
  - intros x [<- | []]; simpl; auto.
  - simpl; intuition discriminate.
  - reflexivity.
Defined.

(** ** Chromosomes without lines *)

Lemma roc_samples_loop_other (r : row) (chr chr' : string)
  (samples : list string) (data data' : rocdata) :
  chr' <> chr ->
  for_each (fun sample data =>
              v <- dict_item sample r ;;
              ret (data_append chr sample (cell_val v) data))
           samples data = inr data' ->
  forall k, data_get chr' k data' = data_get chr' k data.
Proof.
  intros Hne; revert data; induction samples as [| s samples IH];
    intros data H k.
  - now injection H as <-.
  - cbn [for_each] in H; apply bind_inr in H as (d1 & H1 & H).
    apply bind_inr in H1 as (v & _ & H1); injection H1 as <-.
    rewrite (IH _ H), data_get_append.
    apply String.eqb_neq in Hne; now rewrite Hne.
Qed.

(** A row leaves the columns of every chromosome but its own as they
    are. *)
Lemma roc_row_other_chrom (keys samples : list string) (r : row)
  (data data' : rocdata) (chr : string) :
  roc_row keys samples r data = inr data' ->
  matches_chrom chr r = false ->
  forall k, data_get chr k data' = data_get chr k data.
Proof.
  unfold roc_row, matches_chrom, dict_item; intros H Hm k.
  destruct (dict_get "#chrom" r) as [[c |] |]; try discriminate.
  cbn [bind ret] in H.
  destruct (String.eqb c "#chrom"); [now injection H as <- |].
  cbn [negb andb] in Hm; apply String.eqb_neq in Hm.
  destruct (negb _); [now injection H as <- |].
  apply bind_inr in H as (cov & _ & H).
  rewrite (roc_samples_loop_other _ _ chr _ _ _ (not_eq_sym Hm) H).
  rewrite data_get_append.
  apply not_eq_sym, String.eqb_neq in Hm; now rewrite Hm.
Qed.

Lemma roc_rows_other_chrom (keys samples : list string) (rows : list row)
  (data data' : rocdata) (chr : string) :
  for_each (roc_row keys samples) rows data = inr data' ->
  collected chr rows = [] ->
  forall k, data_get chr k data' = data_get chr k data.
Proof.
  revert data; induction rows as [| r rows IH]; intros data H Hc k.
  - now injection H as <-.
  - cbn [for_each] in H; apply bind_inr in H as (d1 & H1 & H).
    unfold collected in Hc; cbn [filter] in Hc.
    destruct (matches_chrom chr r) eqn:Hm; [discriminate |].
    rewrite (IH _ H Hc), (roc_row_other_chrom _ _ _ _ _ _ H1 Hm); reflexivity.
Qed.

Lemma parse_roc_empty_columns (lines : table)
  (traces out : dict pyval) (samples chroms : list string) (chr : string) :
  roc_chroms traces = inr chroms ->
  parse_roc (inr lines) traces samples = inr out ->
  In chr chroms ->
  collected chr (DictReader lines) = [] ->
  roc_traces chr out = Some (map (roc_trace [] chr) samples).
Proof.
  intros Hch H Hchr Hnone.
  apply parse_roc_inr in H as (chroms' & lines' & data & Hc & Hl & Hd & ->).
  rewrite Hch in Hc; injection Hc as <-; injection Hl as <-.
  pose proof (roc_rows_other_chrom _ _ _ _ _ chr Hd Hnone) as E.
  unfold roc_traces; rewrite dict_get_set_same, roc_emit_get.
  apply str_in_In in Hchr; rewrite Hchr; f_equal.
  apply map_ext; intros s; unfold roc_trace; now rewrite !E.
Qed.

(** X3: an established chromosome for which the file has no line (an
    empty file, a file of headers only, or lines of other chromosomes)
    still gets its list of traces, one per sample, each with empty [x] and
    [y]; this needs no assumption on the samples. *)
Theorem parse_roc_chromosome_without_lines (lines : table)
  (traces out : dict pyval) (samples chroms : list string) (chr : string) :
  roc_chroms traces = inr chroms ->
  parse_roc (inr lines) traces samples = inr out ->
  In chr chroms ->
  collected chr (DictReader lines) = [] ->
  roc_traces chr out = Some (map (roc_trace [] chr) samples) /\
  forall t, In t (map (roc_trace [] chr) samples) ->
            trace_field "x" t = Some (PList []) /\
            trace_field "y" t = Some (PList []).
Proof.
  intros Hch H Hchr Hnone; split.
  - eapply parse_roc_empty_columns; eassumption.
  - intros t Ht; apply in_map_iff in Ht as (s & <- & _); split; reflexivity.
Qed.

Lemma parse_roc_chromosome_without_lines_witness :
  exists out,
    parse_roc (inr [["#chrom"; "cov"; "s1"; "s2"]]) demo_traces demo_samples =
      inr out /\
    roc_traces "X" out = Some (map (roc_trace [] "X") demo_samples).
Proof.
  eexists; split; [vm_compute; reflexivity |].
  apply (parse_roc_chromosome_without_lines [["#chrom"; "cov"; "s1"; "s2"]]
           demo_traces _ demo_samples ["1"; "X"] "X");
    [reflexivity | vm_compute; reflexivity | simpl; auto | reflexivity].
Defined.

Lemma matches_chrom_starts_stripped (chr : string) (r : row) :
  starts_stripped chr = true -> matches_chrom chr r = false.
Proof.
  intros Hs; unfold matches_chrom.
  destruct (dict_get "#chrom" r) as [[c |] |]; try reflexivity.
  destruct (String.eqb_spec (strip "chr" c) chr) as [E | _];
    [| now rewrite andb_false_r].
  exfalso; destruct chr as [| a t]; [discriminate |].
  apply strip_head in E; cbn [starts_stripped] in Hs; congruence.
Qed.

(** X4: a key of the trace dictionary that begins with [c], [h] or [r]
    (such as [chr1]) never receives a point: the chromosome of every line
    is stripped of these characters before it is compared with the keys,
    so the traces stored for such a key have empty [x] and [y] whatever
    the file holds. *)
Theorem parse_roc_stripped_key_gets_nothing (lines : table)
  (traces out : dict pyval) (samples chroms : list string) (chr : string) :
  roc_chroms traces = inr chroms ->
  parse_roc (inr lines) traces samples = inr out ->
  In chr chroms ->
  starts_stripped chr = true ->
  roc_traces chr out = Some (map (roc_trace [] chr) samples).
Proof.
  intros Hch H Hchr Hs.
  eapply parse_roc_empty_columns; try eassumption.
  unfold collected; induction (DictReader lines) as [| r rows IH];
    [reflexivity |].
  cbn [filter]; now rewrite matches_chrom_starts_stripped.
Qed.

Lemma parse_roc_stripped_key_gets_nothing_witness :
  exists out,
    parse_roc (inr [["#chrom"; "cov"; "s1"; "s2"];
                    ["chr1"; "0.00"; "1.00"; "1.00"]])
              [("chr1", PList []); ("chromosomes", PList [PStr "chr1"])]
              demo_samples = inr out /\
    roc_traces "chr1" out = Some (map (roc_trace [] "chr1") demo_samples).
Proof.
  eexists; split; [vm_compute; reflexivity |].
  apply (parse_roc_stripped_key_gets_nothing
           [["#chrom"; "cov"; "s1"; "s2"]; ["chr1"; "0.00"; "1.00"; "1.00"]]
           [("chr1", PList []); ("chromosomes", PList [PStr "chr1"])]
           _ demo_samples ["chr1"] "chr1");
    [reflexivity | vm_compute; reflexivity | simpl; auto | reflexivity].
Defined.

(** ** The fields that reach the traces *)

Lemma dict_zip_nth (fieldnames line : list string) (d : row) (i : nat)
  (k v : string) :
  NoDup fieldnames -> nth_error fieldnames i = Some k ->
  nth_error line i = Some v ->
  dict_get k (dict_zip fieldnames line d) = Some (Some v).
Proof.
  revert line d i; induction fieldnames as [| f fs IH]; intros line d i Hnd Hk Hv.
  - destruct i; discriminate.
  - destruct line as [| x line]; [destruct i; discriminate |].
    inversion Hnd as [| ? ? Hf Hnd']; subst.
    destruct i as [| i]; cbn [nth_error dict_zip] in *.
    + injection Hk as ->; injection Hv as ->.
      rewrite dict_zip_other by assumption; apply dict_get_set_same.
    + eapply IH; eassumption.
Qed.

Lemma fold_set_none_in (ks : list string) (d : row) (k : string) :
  In k ks ->
  dict_get k (fold_left (fun d k => dict_set k None d) ks d) = Some None.
Proof.
  revert d; induction ks as [| k0 ks IH]; intros d; [contradiction |].
  cbn [fold_left]; intros [-> | Hin]; [| now apply IH].
  destruct (in_dec string_dec k ks) as [Hin | Hnin]; [now apply IH |].
  rewrite fold_set_none_other by assumption; apply dict_get_set_same.
Qed.

Lemma nth_error_skipn_In {A} (l : list A) (i n : nat) (x : A) :
  nth_error l i = Some x -> n <= i -> In x (skipn n l).
Proof.
  revert i n; induction l as [| a l IH]; intros i n Hx Hn.
  - destruct i; discriminate.
  - destruct n as [| n]; [eapply nth_error_In; eassumption |].
    destruct i as [| i]; [lia |].
    cbn [skipn]; eapply IH; [eassumption | lia].
Qed.

Lemma NoDup_nth_not_skipn {A} (l : list A) (i n : nat) (x : A) :
  NoDup l -> nth_error l i = Some x -> i < n -> ~ In x (skipn n l).
Proof.
  revert i n; induction l as [| a l IH]; intros i n Hnd Hx Hn.
  - destruct i; discriminate.
  - inversion Hnd as [| ? ? Ha Hnd']; subst.
    destruct n as [| n]; [lia |]; cbn [skipn].
    destruct i as [| i]; cbn [nth_error] in Hx.
    + injection Hx as ->; intros Hin; apply Ha.
      rewrite <- (firstn_skipn n l), in_app_iff; now right.
    + eapply IH; [eassumption | eassumption | lia].
Qed.

(** Under a header without repeated names, a row maps each name to the
    field at the name's position, and to [None] on a shorter line. *)
Lemma DictReader_row_nth (fieldnames line : list string) (i : nat) (k : string) :
  NoDup fieldnames -> nth_error fieldnames i = Some k ->
  dict_get k (DictReader_row fieldnames line) = Some (nth_error line i).
Proof.
  intros Hnd Hk; unfold DictReader_row.
  destruct (nth_error line i) as [v |] eqn:Hv.
  - rewrite fold_set_none_other.
    + eapply dict_zip_nth; eassumption.
    + eapply NoDup_nth_not_skipn; try eassumption.
      apply nth_error_Some; congruence.
  - apply fold_set_none_in; eapply nth_error_skipn_In; [eassumption |].
    now apply nth_error_None.
Qed.

Lemma filter_map_swap' {A B} (f : A -> B) (p : B -> bool) (l : list A) :
  filter p (map f l) = map f (filter (fun a => p (f a)) l).
Proof.
  induction l as [| a l IH]; [reflexivity |]; cbn [map filter].
  destruct (p (f a)); cbn [map]; now rewrite IH.
Qed.

Lemma collected_lines (cols : list string) (lines : table) (chr : string) :
  NoDup ("#chrom" :: cols) ->
  collected chr (DictReader (("#chrom" :: cols) :: lines)) =
  map (DictReader_row ("#chrom" :: cols)) (filter (line_matches chr) lines).
Proof.
  intros Hnd; unfold collected; cbn [DictReader].
  rewrite filter_map_swap'; f_equal.
  induction lines as [| line lines IH]; [reflexivity |]; cbn [filter].
  destruct line as [| c rest]; cbn [is_blank negb line_matches]; [exact IH |].
  cbn [filter]; unfold matches_chrom at 1.
  rewrite (DictReader_row_nth ("#chrom" :: cols) (c :: rest) 0 "#chrom" Hnd eq_refl).
  cbn [nth_error]; rewrite IH; reflexivity.
Qed.

Lemma column_lines (fieldnames : list string) (L : table) (i : nat) (k : string) :
  NoDup fieldnames -> nth_error fieldnames i = Some k ->
  column k (map (DictReader_row fieldnames) L) = map (field i) L.
Proof.
  intros Hnd Hk; unfold column; rewrite map_map; apply map_ext; intros line.
  now rewrite (DictReader_row_nth fieldnames line i k Hnd Hk).
Qed.

Lemma Forall2_nth_error {A B} (P : A -> B -> Prop) (la : list A) (lb : list B)
  (i : nat) (a : A) :
  Forall2 P la lb -> nth_error la i = Some a ->
  exists b, nth_error lb i = Some b /\ P a b.
Proof.
  intros H; revert i; induction H as [| x y la lb Hxy _ IH]; intros i Hi.
  - destruct i; discriminate.
  - destruct i as [| i]; cbn [nth_error] in *; [injection Hi as ->; eauto |].
    now apply IH.
Qed.

(** X5: for a file laid out as [#chrom], [cov] and one column per sample
    (distinct samples, none called [#chrom], [cov] or [x]), [parse_roc]
    returns, and on every established chromosome the trace of the sample
    in column [i] has, as [x], the [cov] fields of the lines of that
    chromosome in file order and, as [y], the fields of the sample's
    column on the same lines without the first.  The fields are kept as
    texts, and a field missing from a short line becomes [None]. *)
Theorem parse_roc_reads_fields (samples : list string) (lines : table)
  (traces : dict pyval) (chroms : list string) (chr : string) :
  roc_chroms traces = inr chroms ->
  NoDup samples ->
  ~ In "#chrom" samples -> ~ In "cov" samples -> ~ In "x" samples ->
  In chr chroms ->
  exists out l,
    parse_roc (inr (("#chrom" :: "cov" :: samples) :: lines)) traces samples =
      inr out /\
    roc_traces chr out = Some l /\
    List.length l = List.length samples /\
    forall i s, nth_error samples i = Some s ->
      exists t,
        nth_error l i = Some t /\
        trace_field "text" t = Some (PStr s) /\
        trace_field "x" t =
          Some (PList (map (field 1) (filter (line_matches chr) lines))) /\
        trace_field "y" t =
          Some (PList (tl (map (field (2 + i))
                               (filter (line_matches chr) lines)))).
Proof.
  intros Hch Hnd Hc Hcov Hx Hchr.
  assert (Hhdr : NoDup ("#chrom" :: "cov" :: samples)).
  { constructor; [simpl; intuition discriminate |].
    constructor; assumption. }
  destruct (parse_roc_total ("cov" :: samples) lines traces samples) as [out Hout].
  - apply list_index_In; unfold roc_chroms in Hch.
    destruct (list_index "chromosomes" (dict_keys traces)); discriminate.
  - simpl; intuition discriminate.
  - now left.
  - intros s Hs; right; now right.
  - destruct (parse_roc_trace_columns _ _ _ _ _ Hnd Hx Hch Hout chr Hchr)
      as (l & Hl & Hall).
    exists out, l; split; [exact Hout |]; split; [exact Hl |].
    split; [symmetry; eapply Forall2_length; eassumption |].
    intros i s Hi.
    destruct (Forall2_nth_error _ _ _ _ _ Hall Hi) as (t & Ht & Htext & Hxs & Hys).
    exists t; split; [exact Ht |]; split; [exact Htext |].
    rewrite collected_lines in Hxs, Hys by assumption.
    rewrite (column_lines _ _ 1 "cov" Hhdr eq_refl) in Hxs.
    rewrite (column_lines _ _ (2 + i) s Hhdr Hi) in Hys.
    split; assumption.
Qed.

Lemma parse_roc_reads_fields_witness :
  exists out l t,
    parse_roc (inr (["#chrom"; "cov"; "s1"; "s2"] :: tl demo_roc))
              demo_traces demo_samples = inr out /\
    roc_traces "1" out = Some l /\
    nth_error l 1 = Some t /\
    trace_field "x" t = Some (PList [PStr "0.00"; PStr "0.01"]) /\
    trace_field "y" t = Some (PList [PStr "0.97"]).
Proof.
  destruct (parse_roc_reads_fields demo_samples (tl demo_roc) demo_traces
              ["1"; "X"] "1") as (out & l & Hout & Hl & _ & Hall).
  - reflexivity.
  - repeat constructor; simpl; intuition discriminate.
  - simpl; intuition discriminate.
  - simpl; intuition discriminate.
  - simpl; intuition discriminate.
  - simpl; auto.
  - destruct (Hall 1 "s2" eq_refl) as (t & Ht & _ & Hx & Hy).
    exists out, l, t; auto.
Defined.

(** ** The keys of the roc dictionary *)

Lemma filter_all {A} (p : A -> bool) (l : list A) :
  (forall a, In a l -> p a = true) -> filter p l = l.
Proof.
  induction l as [| a l IH]; intros H; [reflexivity |]; cbn [filter].
  rewrite (H a (or_introl eq_refl)), IH; [reflexivity |].
  intros; apply H; now right.
Qed.

Lemma list_pop_filter (x : string) (l : list string) (i : nat) :
  NoDup l -> list_index x l = Some i ->
  list_pop i l = filter (fun k => negb (String.eqb k x)) l.
Proof.
  revert i; induction l as [| y l IH]; intros i Hnd; cbn [list_index];
    [discriminate |].
  inversion Hnd as [| ? ? Hy Hnd']; subst.
  destruct (String.eqb x y) eqn:E.
  - apply String.eqb_eq in E; subst y; intros [= <-]; cbn [list_pop filter].
    rewrite String.eqb_refl; cbn [negb].
    symmetry; apply filter_all; intros k Hk.
    apply negb_true_iff, String.eqb_neq; intros ->; contradiction.
  - destruct (list_index x l) as [j |]; [| discriminate].
    intros [= <-]; cbn [list_pop filter option_map].
    rewrite String.eqb_sym, E; cbn [negb]; f_equal; now apply IH.
Qed.

Lemma fold_dict_set_keys {V} (f : string -> V) (l : list string) (acc : dict V) :
  NoDup (dict_keys acc ++ l) ->
  dict_keys (fold_left (fun d k => dict_set k (f k) d) l acc) =
  dict_keys acc ++ l.
Proof.
  revert acc; induction l as [| k l IH]; intros acc Hnd; cbn [fold_left].
  - now rewrite app_nil_r.
  - assert (Hk : dict_get k acc = None).
    { destruct (dict_get k acc) eqn:E; [| reflexivity].
      exfalso; apply NoDup_remove_2 in Hnd; apply Hnd, in_or_app; left.
      apply dict_get_keys; congruence. }
    rewrite IH; rewrite (dict_set_fresh k (f k) acc Hk);
      unfold dict_keys; rewrite map_app; cbn [map fst];
      rewrite <- app_assoc; [reflexivity | exact Hnd].
Qed.

(** X6: the roc dictionary has one entry for every key of the incoming
    trace dictionary other than ["chromosomes"], in the order of that
    dictionary: every such key counts as a chromosome, whatever is stored
    under it. *)
Theorem parse_roc_roc_keys (fh : result table) (traces out : dict pyval)
  (samples : list string) :
  NoDup (dict_keys traces) ->
  parse_roc fh traces samples = inr out ->
  exists roc,
    dict_get "roc" out = Some (PDict roc) /\
    dict_keys roc =
    filter (fun k => negb (String.eqb k "chromosomes")) (dict_keys traces).
Proof.
  intros Hnd H.
  apply parse_roc_inr in H as (chroms & lines & data & Hc & _ & _ & ->).
  eexists; split; [apply dict_get_set_same |].
  unfold roc_chroms in Hc.
  destruct (list_index "chromosomes" (dict_keys traces)) as [i |] eqn:E;
    [| discriminate].
  injection Hc as <-; rewrite <- (list_pop_filter _ _ _ Hnd E).
  unfold roc_emit; rewrite fold_dict_set_keys; [reflexivity |].
  cbn [dict_keys map app]; rewrite (list_pop_filter _ _ _ Hnd E).
  now apply NoDup_filter.
Qed.

Lemma parse_roc_roc_keys_witness :
  exists out roc,
    parse_roc (inr demo_roc) demo_traces demo_samples = inr out /\
    dict_get "roc" out = Some (PDict roc) /\
    dict_keys roc = ["1"; "X"].
Proof.
  assert (Hout : exists out,
             parse_roc (inr demo_roc) demo_traces demo_samples = inr out)
    by (eexists; vm_compute; reflexivity).
  destruct Hout as [out Hout].
  destruct (parse_roc_roc_keys (inr demo_roc) demo_traces out demo_samples)
    as (roc & Hroc & Hkeys).
  - repeat constructor; simpl; intuition discriminate.
  - exact Hout.
  - exists out, roc; split; [exact Hout |]; split; [exact Hroc | exact Hkeys].
Defined.

(** ** [strip] *)

Lemma lstrip_all_in (chars p s : string) :
  all_in chars p = true -> lstrip chars (p ++ s) = lstrip chars s.
Proof.
  induction p as [| c p IH]; cbn [all_in append lstrip]; [reflexivity |].
  intros H; apply andb_true_iff in H as [-> Hp]; now apply IH.
Qed.

Lemma rstrip_all_in (chars q : string) :
  all_in chars q = true -> rstrip chars q = EmptyString.
Proof.
  induction q as [| c q IH]; cbn [all_in rstrip]; [reflexivity |].
  intros H; apply andb_true_iff in H as [Hc Hq]; now rewrite (IH Hq), Hc.
Qed.

Lemma rstrip_fixed (chars s q : string) :
  match last_char s with
  | Some l => chr_in l chars = false
  | None => True
  end ->
  all_in chars q = true ->
  rstrip chars (s ++ q) = s.
Proof.
  intros Hl Hq; induction s as [| c s IH]; cbn [append];
    [now apply rstrip_all_in |].
  cbn [rstrip]; destruct s as [| c' s].
  - cbn [append]; rewrite (rstrip_all_in _ _ Hq).
    cbn [last_char] in Hl; now rewrite Hl.
  - rewrite IH by exact Hl; reflexivity.
Qed.

(** X7: a name that neither begins nor ends with a character of [chars]
    is what [strip] returns for it, and for it with characters of [chars]
    put before and after: with ["chr"], the names [1], [chr1] and [1r] all
    normalise to [1]. *)
Theorem strip_edge_free (chars p s q : string) :
  edge_free chars s = true ->
  all_in chars p = true -> all_in chars q = true ->
  strip chars (p ++ s ++ q) = s.
Proof.
  intros Hs Hp Hq; unfold strip; rewrite lstrip_all_in by assumption.
  destruct s as [| c s]; cbn [append].
  - assert (E : lstrip chars q = EmptyString).
    { clear - Hq; induction q as [| b q IH]; [reflexivity |].
      cbn [all_in] in Hq; apply andb_true_iff in Hq as [Hb Hq].
      cbn [lstrip]; rewrite Hb; now apply IH. }
    now rewrite E.
  - cbn [edge_free] in Hs; apply andb_true_iff in Hs as [Hc Hl].
    apply negb_true_iff in Hc; cbn [lstrip]; rewrite Hc.
    apply (rstrip_fixed chars (String c s) q); [| assumption].
    destruct (last_char (String c s)); [now apply negb_true_iff | exact I].
Qed.

Lemma strip_edge_free_witness :
  strip "chr" ("chr" ++ "1" ++ "") = "1" /\
  strip "chr" ("" ++ "X" ++ "r") = "X".
Proof.
  split.
  - apply (strip_edge_free "chr" "chr" "1" ""); reflexivity.
  - apply (strip_edge_free "chr" "" "X" "r"); reflexivity.
Defined.

(** * Further properties of [compress_data] *)

Lemma compress_data_roundtrip_witness :
  (fun s : string => s)
    (compress_data (fun s => s)
       (PDict [("y", PList [PFloat FNaN; PFloat (FFinite [F1; Fdot; F5])]);
               ("text", PStr "s1")])) =
  dumps (PDict [("y", PList [PNone; PFloat (FFinite [F1; Fdot; F5])]);
                ("text", PStr "s1")]).
Proof.
  apply (compress_data_roundtrip (fun s => s) (fun s => s)
           (PDict [("y", PList [PFloat FNaN; PFloat (FFinite [F1; Fdot; F5])]);
                   ("text", PStr "s1")]));
    reflexivity.
Defined.

(** ** No [NaN] is left *)

Lemma scan_starts_N (s : string) :
  startswith "N" (scan s) = true -> startswith "N" s = true.
Proof.
  destruct s as [| c s]; [discriminate |]; cbn [replace_scan].
  destruct (startswith "NaN" (String c s)); [discriminate |].
  now cbn [startswith].
Qed.

Lemma scan_starts_aN (s : string) :
  startswith "aN" (scan s) = true -> startswith "aN" s = true.
Proof.
  destruct s as [| c s]; [discriminate |]; cbn [replace_scan].
  destruct (startswith "NaN" (String c s)); [discriminate |].
  change (startswith "aN" (String c (scan s)))
    with (Ascii.eqb "a" c && startswith "N" (scan s)).
  change (startswith "aN" (String c s))
    with (Ascii.eqb "a" c && startswith "N" s).
  intros H; apply andb_true_iff in H as [-> H].
  now rewrite (scan_starts_N _ H).
Qed.

Lemma replace_scan_no_NaN (k : nat) (s : string) :
  has_NaN (replace_scan "NaN" "null" k s) = false.
Proof.
  revert k; induction s as [| c s IH]; intros k; [reflexivity |].
  cbn [replace_scan]; destruct k as [| k]; [| apply IH].
  destruct (startswith "NaN" (String c s)) eqn:Hm.
  - rewrite (has_NaN_no_N "null") by reflexivity; apply IH.
  - rewrite has_NaN_cons, IH, orb_false_r.
    destruct (Ascii.eqb "N" c) eqn:Hc; [| reflexivity].
    destruct (startswith "aN" (scan s)) eqn:Ha; [| reflexivity].
    apply scan_starts_aN in Ha.
    change (startswith "NaN" (String c s))
      with (Ascii.eqb "N" c && startswith "aN" s) in Hm.
    now rewrite Hc, Ha in Hm.
Qed.

(** X9: whatever the collection, the text [compress_data] hands to the
    compressor, and hence the text any reversible codec gives back,
    contains no occurrence of [NaN]. *)
Theorem compress_data_no_NaN (compress decompress : string -> string)
  (v : pyval) :
  (forall s, decompress (compress s) = s) ->
  has_NaN (decompress (compress_data compress v)) = false.
Proof.
  intros Hcodec; unfold compress_data; rewrite Hcodec.
  apply replace_scan_no_NaN.
Qed.

Lemma compress_data_no_NaN_witness :
  has_NaN ((fun s : string => s)
             (compress_data (fun s => s) nan_named_traces)) = false.
Proof.
  apply (compress_data_no_NaN (fun s => s) (fun s => s) nan_named_traces).
  reflexivity.
Defined.

(** ** Only printable ASCII *)

Lemma all_printable_app (a b : string) :
  all_printable (a ++ b) = all_printable a && all_printable b.
Proof.
  induction a as [| c a IH]; [reflexivity |]; cbn [append all_printable].
  now rewrite IH, andb_assoc.
Qed.

Lemma escape_char_printable (c : ascii) : all_printable (escape_char c) = true.
Proof.
  destruct c as [[] [] [] [] [] [] [] []]; vm_compute; reflexivity.
Qed.

Lemma escape_printable (s : string) : all_printable (escape s) = true.
Proof.
  induction s as [| c s IH]; [reflexivity |]; cbn [escape].
  now rewrite all_printable_app, escape_char_printable, IH.
Qed.

Lemma encode_printable (s : string) :
  all_printable (encode_basestring_ascii s) = true.
Proof.
  unfold encode_basestring_ascii; cbn [all_printable].
  rewrite all_printable_app, escape_printable; reflexivity.
Qed.

Lemma digits_printable (s : string) :
  all_digits s = true -> all_printable s = true.
Proof.
  induction s as [| c s IH]; [reflexivity |]; cbn [all_digits all_printable].
  intros H; apply andb_true_iff in H as [Hc Hs]; rewrite (IH Hs), andb_true_r.
  unfold is_digit in Hc; unfold printable.
  apply andb_true_iff in Hc as [H1 H2].
  apply Nat.leb_le in H1, H2.
  apply andb_true_iff; split; apply Nat.leb_le; lia.
Qed.

Lemma string_of_Z_printable (z : Z) : all_printable (string_of_Z z) = true.
Proof.
  pose proof (num_text_string_of_Z z) as H.
  destruct (string_of_Z z) as [| c r]; [reflexivity |].
  unfold num_text in H; apply orb_true_iff in H as [H | H].
  - now apply digits_printable.
  - apply andb_true_iff in H as [H Hr]; apply andb_true_iff in H as [Hc _].
    apply Ascii.eqb_eq in Hc; subst c.
    cbn [all_printable]; now rewrite (digits_printable _ Hr).
Qed.

Lemma floatstr_printable (f : pyfloat) : all_printable (floatstr f) = true.
Proof.
  destruct f as [| | | repr]; try reflexivity; cbn [floatstr].
  induction repr as [| c repr IH]; [reflexivity |].
  cbn [map string_of_list_ascii all_printable]; rewrite IH.
  destruct c; reflexivity.
Qed.

Lemma concat_printable (items : list string) :
  Forall (fun x => all_printable x = true) items ->
  all_printable (String.concat ", " items) = true.
Proof.
  induction 1 as [| x items Hx H IH]; [reflexivity |].
  destruct items as [| y items]; [exact Hx |].
  change (String.concat ", " (x :: y :: items))
    with (x ++ ", " ++ String.concat ", " (y :: items))%string.
  now rewrite !all_printable_app, Hx, IH.
Qed.

Lemma dumps_printable (v : pyval) : all_printable (dumps v) = true.
Proof.
  induction v as [| b | z | f | s | l IH | d IH] using pyval_induction.
  - reflexivity.
  - destruct b; reflexivity.
  - apply string_of_Z_printable.
  - apply floatstr_printable.
  - apply encode_printable.
  - cbn [dumps]; rewrite !all_printable_app, concat_printable; [reflexivity |].
    apply Forall_map; exact IH.
  - cbn [dumps]; rewrite !all_printable_app, concat_printable; [reflexivity |].
    apply Forall_map; eapply Forall_impl; [| exact IH].
    intros [k x] Hx; cbn [fst snd] in *.
    now rewrite !all_printable_app, encode_printable, Hx.
Qed.

Lemma replace_scan_printable (old new : string) (k : nat) (s : string) :
  all_printable new = true -> all_printable s = true ->
  all_printable (replace_scan old new k s) = true.
Proof.
  intros Hnew; revert k; induction s as [| c s IH]; intros k Hs; [reflexivity |].
  cbn [all_printable] in Hs; apply andb_true_iff in Hs as [Hc Hs].
  cbn [replace_scan]; destruct k as [| k]; [| now apply IH].
  destruct (startswith old (String c s)).
  - rewrite all_printable_app, Hnew; now apply IH.
  - cbn [all_printable]; rewrite Hc; now apply IH.
Qed.

(** X10: whatever the strings of the collection hold, the text
    [compress_data] hands to the compressor consists of characters from
    space to tilde only: what is outside that range has been written as an
    escape. *)
Theorem compress_data_printable (compress decompress : string -> string)
  (v : pyval) :
  (forall s, decompress (compress s) = s) ->
  all_printable (decompress (compress_data compress v)) = true.
Proof.
  intros Hcodec; unfold compress_data; rewrite Hcodec.
  unfold json_payload, utf8_ignore_roundtrip, replace.
  apply replace_scan_printable; [reflexivity | apply dumps_printable].
Qed.

Lemma compress_data_printable_witness :
  all_printable
    ((fun s : string => s)
       (compress_data (fun s => s)
          (PStr (String (ascii_of_nat 233) (String (ascii_of_nat 10) "x"))))) =
  true.
Proof.
  apply (compress_data_printable (fun s => s) (fun s => s)).
  reflexivity.
Defined.

(** * Further properties of [cli] *)



(** X12: when the output path cannot be opened for writing the run fails
    with [OSError], but only after the four stages have run, and no file
    has changed. *)
Theorem cli_unwritable_output (E : Env) (argv : list string) (a : Args)
  (w : world) (traces : dict pyval) :
  parse_args (py_float E) argv = inr a ->
  parsed E a (files w) = inr traces ->
  writable E (files w) (output a) = false ->
  cli E argv w =
  (inl (OSError (output a)), mkWorld (files w) (stderr w ++ stage_log a)).
Proof.
  intros Ha Hp Hw; rewrite (cli_parsed E argv a w traces Ha Hp), Hw.
  reflexivity.
Qed.

Lemma cli_unwritable_output_witness :
  cli readonly_env ["cov.bed"; "cov.roc"; "-o"; "/report.html"] demo_world =
  (inl (OSError "/report.html"),
   mkWorld (files demo_world)
           ["[INFO] parsing bed file (cov.bed)";
            "[INFO] parsing gff file (None)";
            "[INFO] parsing roc file (cov.roc)"]).
Proof.
  assert (Hp : exists traces,
             parsed readonly_env
                    (set_positionals "cov.bed" "cov.roc"
                       (set_output "/report.html" default_args))
                    (files demo_world) = inr traces)
    by (eexists; vm_compute; reflexivity).
  destruct Hp as [traces Hp].
  apply (cli_unwritable_output readonly_env
           ["cov.bed"; "cov.roc"; "-o"; "/report.html"]
           (set_positionals "cov.bed" "cov.roc"
              (set_output "/report.html" default_args))
           demo_world traces);
    [reflexivity | exact Hp | reflexivity].
Defined.

(** X13: the output file is opened before the document is rendered, so
    when the template fails after the four stages have returned, the run
    fails with the template's exception and leaves the output file empty:
    a report that was at that path is lost. *)
Theorem cli_template_failure (E : Env) (argv : list string) (a : Args)
  (w : world) (traces : dict pyval) (e : exn) :
  parse_args (py_float E) argv = inr a ->
  parsed E a (files w) = inr traces ->
  writable E (files w) (output a) = true ->
  render E (compress_data (compressToBase64 E) (PDict traces)) = inl e ->
  cli E argv w =
  (inl e, mkWorld (dict_set (output a) EmptyString (files w))
                  (stderr w ++ stage_log a)).
Proof.
  intros Ha Hp Hw Hr; rewrite (cli_parsed E argv a w traces Ha Hp), Hw, Hr.
  reflexivity.
Qed.

Lemma cli_template_failure_witness :
  dict_get "covviz_report.html" (files rerun_world) = Some "an earlier report" /\
  exists w',
    cli no_template_env ["cov.bed"; "cov.roc"] rerun_world =
      (inl (OtherError "TemplateNotFound" "covviz.html"), w') /\
    dict_get "covviz_report.html" (files w') = Some EmptyString.
Proof.
  split; [reflexivity |].
  assert (Hp : exists traces,
             parsed no_template_env
                    (set_positionals "cov.bed" "cov.roc" default_args)
                    (files rerun_world) = inr traces)
    by (eexists; vm_compute; reflexivity).
  destruct Hp as [traces Hp].
  eexists; split.
  - apply (cli_template_failure no_template_env ["cov.bed"; "cov.roc"]
             (set_positionals "cov.bed" "cov.roc" default_args) rerun_world
             traces);
      [reflexivity | exact Hp | reflexivity | reflexivity].
  - reflexivity.
Defined.

(** X14: without [--ped], or with an empty one, the metadata parser is not
    run: two ped parsers give the same run, though the coverage parser
    still receives the [ped] argument. *)
Theorem cli_without_ped (E E' : Env) (argv : list string) (a : Args)
  (w : world) :
  same_but_parse_ped E E' ->
  parse_args (py_float E) argv = inr a ->
  truthy (ped a) = false ->
  cli E' argv w = cli E argv w.
Proof.
  intros (Hf & Hbed & Hgff & Hgz & Hw & Hr & Hc) Ha Hped.
  unfold_cli; rewrite Hf, Hbed, Hgff, Hgz, Hw, Hr, Hc, Ha, Hped.
  reflexivity.
Qed.

Lemma cli_without_ped_witness :
  cli no_ped_env ["cov.bed"; "cov.roc"; "-p"; ""] demo_world =
  cli demo_env ["cov.bed"; "cov.roc"; "-p"; ""] demo_world.
Proof.
  apply (cli_without_ped demo_env no_ped_env
           ["cov.bed"; "cov.roc"; "-p"; ""]
           (set_positionals "cov.bed" "cov.roc" (set_ped "" default_args))
           demo_world);
    [repeat split | reflexivity | reflexivity].
Defined.

(** * Further properties of [parse_args] *)

Lemma find_option_not_declared (pf : string -> option pyfloat) (t : string) :
  str_in t option_strings = false -> find_option t (options pf) = None.
Proof.
  intros H; apply str_in_false in H.
  assert (G : forall opts : list optdecl,
             ~ In t (List.concat (map fst opts)) -> find_option t opts = None).
  { induction opts as [| [names store] opts IH]; [reflexivity |].
    cbn [map fst List.concat find_option]; intros Hn.
    replace (str_in t names) with false.
    - apply IH; intros Hin; apply Hn, in_or_app; now right.
    - symmetry; apply str_in_false; intros Hin; apply Hn, in_or_app; now left. }
  apply G; exact H.
Qed.

Lemma parse_tokens_is_positional (pf : string -> option pyfloat) (t : string)
  (rest : list string) (a : Args) (pos : list string) :
  is_positional t = true ->
  parse_tokens (options pf) (t :: rest) a pos =
  parse_tokens (options pf) rest a (pos ++ [t]).
Proof.
  unfold is_positional; intros H.
  apply andb_true_iff in H as [H Hl]; apply andb_true_iff in H as [Hh Ho].
  apply negb_true_iff in Hl, Hh, Ho.
  apply parse_tokens_positional; auto using find_option_not_declared.
Qed.

(** X15: a command line made of the two file names alone is accepted, and
    every option then has its declared default: the exclusion pattern, sex
    chromosomes [X,Y], z threshold 3.5, distance threshold 150000, slop
    500000, at least 8 samples, [covviz_report.html] as output, no gff and
    no ped, columns [sample_id] and [sex]. *)
Theorem parse_args_defaults (pf : string -> option pyfloat) (b r : string) :
  is_positional b = true -> is_positional r = true ->
  parse_args pf [b; r] =
  inr {| bed := b; roc := r;
         exclude :=
           "^GL|^hs|^chrEBV$|M$|MT$|^NC|_random$|Un_|^HLA\-|_alt$|hap\d+$";
         sex_chroms := "X,Y";
         z_threshold := FFinite [F3; Fdot; F5];
         distance_threshold := 150000;
         slop := 500000;
         gff := None;
         output := "covviz_report.html";
         min_samples := 8;
         ped := None;
         sample_col := "sample_id";
         sex_col := "sex" |}.
Proof.
  intros Hb Hr; unfold parse_args.
  rewrite !parse_tokens_is_positional by assumption.
  reflexivity.
Qed.

Lemma parse_args_defaults_witness :
  exists a,
    parse_args (fun _ => None) ["cohort.bed.gz"; "cohort.roc"] = inr a /\
    distance_threshold a = 150000%Z /\ slop a = 500000%Z /\
    min_samples a = 8%Z.
Proof.
  eexists; split.
  - apply (parse_args_defaults (fun _ => None) "cohort.bed.gz" "cohort.roc");
      reflexivity.
  - repeat split.
Defined.

(** * The order of the lines of a coverage-distribution file *)

Lemma roc_emit_ext (d1 d2 : rocdata) (samples chroms : list string) :
  (forall chr s, In chr chroms -> In s samples ->
                 roc_trace d1 chr s = roc_trace d2 chr s) ->
  roc_emit d1 samples chroms = roc_emit d2 samples chroms.
Proof.
  unfold roc_emit; generalize (@nil (string * pyval)) as acc.
  induction chroms as [| chr chroms IH]; intros acc H; [reflexivity |].
  cbn [fold_left]; rewrite !fold_append_map.
  rewrite (map_ext_in (roc_trace d1 chr) (roc_trace d2 chr))
    by (intros s Hs; apply H; [now left | exact Hs]).
  apply IH; intros c s Hc Hs; apply H; [now right | exact Hs].
Qed.

(** X17: the traces depend on the file only through, for each established
    chromosome, the rows of that chromosome in their order: two files that
    agree on these, and on which [parse_roc] returns, give the same trace
    dictionary, however the chromosomes are ordered or interleaved and
    whatever other lines the files hold.  The samples are distinct and
    none is called [x]. *)
Theorem parse_roc_per_chromosome (lines1 lines2 : table)
  (traces out1 out2 : dict pyval) (samples chroms : list string) :
  NoDup samples -> ~ In "x" samples ->
  roc_chroms traces = inr chroms ->
  parse_roc (inr lines1) traces samples = inr out1 ->
  parse_roc (inr lines2) traces samples = inr out2 ->
  (forall chr, In chr chroms ->
     collected chr (DictReader lines1) = collected chr (DictReader lines2)) ->
  out1 = out2.
Proof.
  intros Hnd Hx Hch H1 H2 Hsame.
  apply parse_roc_inr in H1 as (c1 & l1 & d1 & Hc1 & Hl1 & Hd1 & ->).
  apply parse_roc_inr in H2 as (c2 & l2 & d2 & Hc2 & Hl2 & Hd2 & ->).
  rewrite Hch in Hc1, Hc2; injection Hc1 as <-; injection Hc2 as <-.
  injection Hl1 as <-; injection Hl2 as <-.
  do 2 f_equal; apply roc_emit_ext; intros chr s Hchr Hs.
  assert (Hk : In chr (dict_keys (dict_set "roc" (PDict []) traces)))
    by (apply dict_keys_set; right; eapply roc_chroms_In; eassumption).
  destruct (roc_rows_data _ _ _ _ _ Hnd Hx Hd1 chr Hk) as [Ex1 Es1].
  destruct (roc_rows_data _ _ _ _ _ Hnd Hx Hd2 chr Hk) as [Ex2 Es2].
  unfold roc_trace.
  now rewrite Ex1, Ex2, (Es1 s Hs), (Es2 s Hs), (Hsame chr Hchr).
Qed.

Lemma parse_roc_per_chromosome_witness :
  parse_roc (inr shuffled_roc) demo_traces demo_samples =
  parse_roc (inr demo_roc) demo_traces demo_samples.
Proof.
  assert (H1 : exists out,
             parse_roc (inr shuffled_roc) demo_traces demo_samples = inr out)
    by (eexists; vm_compute; reflexivity).
  assert (H2 : exists out,
             parse_roc (inr demo_roc) demo_traces demo_samples = inr out)
    by (eexists; vm_compute; reflexivity).
  destruct H1 as [out1 H1], H2 as [out2 H2]; rewrite H1, H2; f_equal.
  apply (parse_roc_per_chromosome shuffled_roc demo_roc demo_traces out1 out2
           demo_samples ["1"; "X"]).
  - repeat constructor; simpl; intuition discriminate.
  - simpl; intuition discriminate.
  - reflexivity.
  - exact H1.
  - exact H2.
  - intros chr [<- | [<- | []]]; reflexivity.
Defined.

(** * A header without [#chrom] *)

(** X18: when the header of the file has no [#chrom] column (a header
    line is missing, or it names the column otherwise), [parse_roc] fails
    with [KeyError] on ["#chrom"] at the first line that is not blank; a
    file with no such line is read without failure. *)
Theorem parse_roc_missing_chrom_column (fieldnames : list string)
  (lines : table) (traces : dict pyval) (samples : list string) :
  In "chromosomes" (dict_keys traces) ->
  ~ In "#chrom" fieldnames ->
  (existsb (fun l => negb (is_blank l)) lines = true ->
   parse_roc (inr (fieldnames :: lines)) traces samples =
   inl (KeyError "#chrom")) /\
  (existsb (fun l => negb (is_blank l)) lines = false ->
   exists out, parse_roc (inr (fieldnames :: lines)) traces samples = inr out).
Proof.
  intros Hk Hc; unfold parse_roc, roc_chroms.
  apply list_index_In in Hk.
  destruct (list_index "chromosomes" (dict_keys traces)) as [i |];
    [| congruence].
  cbn [bind ret DictReader]; split; intros Hex.
  - induction lines as [| line lines IH]; [discriminate |].
    cbn [existsb filter] in *.
    destruct (negb (is_blank line)); [| now apply IH].
    cbn [map for_each]; unfold roc_row at 1.
    now rewrite DictReader_row_missing.
  - replace (filter (fun l => negb (is_blank l)) lines) with (@nil (list string)).
    + cbn [map for_each bind ret]; eauto.
    + symmetry; induction lines as [| line lines IH]; [reflexivity |].
      cbn [existsb filter] in *.
      destruct (negb (is_blank line)); [discriminate | now apply IH].
Qed.

Lemma parse_roc_missing_chrom_column_witness :
  parse_roc (inr (["chrom"; "cov"; "s1"; "s2"] :: tl demo_roc))
            demo_traces demo_samples = inl (KeyError "#chrom").
Proof.
  destruct (parse_roc_missing_chrom_column ["chrom"; "cov"; "s1"; "s2"]
              (tl demo_roc) demo_traces demo_samples) as [Hfail _].
  - simpl; auto.
  - simpl; intuition discriminate.
  - apply Hfail; reflexivity.
Defined.
